(** * STM32 GPDMAv1 helper driver: channel allocator and interrupt dispatch

    Shallow embedding of [os/hal/ports/STM32/LLD/GPDMAv1/stm32_gpdma.c]:
    [dmaInit], [gpdmaChannelAllocI], [gpdmaChannelAlloc], [gpdmaChannelFreeI],
    [gpdmaChannelFree] and [gpdmaServeInterrupt], over an explicit machine
    state (driver variables, channel registers, RCC clock gates, NVIC
    vectors, kernel lock), in a small state-and-fault monad. *)

From Stdlib Require Import ZArith Bool Lia.
From stdpp Require Import base list gmap.

Local Open Scope Z_scope.

(** ** Machine integers and pointers *)

(** [uint32_t] arithmetic wraps modulo [2^32]. *)
Definition uint32 (z : Z) : Z := z mod 2 ^ 32.

(** [~x] on a [uint32_t]. *)
Definition not32 (x : Z) : Z := uint32 (Z.lnot x).

(** [(uint32_t)(1U << i)]. *)
Definition bit32 (i : nat) : Z := uint32 (Z.shiftl 1 (Z.of_nat i)).

(** Function and data pointers are addresses; [NULL] is address zero. *)
Definition NULL : Z := 0.

(** ** Platform configuration (the macros of the headers) *)

Record hal_config := {
  STM32_GPDMA1_NUM_CHANNELS : nat;
  STM32_GPDMA2_NUM_CHANNELS : nat;
  STM32_GPDMA1_MASK_ANY : Z;
  STM32_GPDMA2_MASK_ANY : Z;
  (** [STM32_GPDMA1_CHk_NUMBER], [STM32_GPDMA2_CHk_NUMBER]: the IRQ vector of
      channel [k] of each controller. *)
  STM32_GPDMA1_CH_NUMBER : nat -> nat;
  STM32_GPDMA2_CH_NUMBER : nat -> nat;
  (** Debug options of the OSAL; the checks compile to nothing when off. *)
  OSAL_DBG_ENABLE_CHECKS : bool;
  OSAL_DBG_ENABLE_ASSERTS : bool;
  CH_DBG_SYSTEM_STATE_CHECK : bool
}.

(** ** Data model *)

(** One entry of [__stm32_gpdma_channels]: the register block of the channel
    (its position among the blocks of [regs]) and its IRQ vector. *)
Record stm32_gpdma_channel_t := {
  channel : nat;
  vector : nat
}.

(** The registers of one channel that the driver touches.  [CFCR] is
    write-only on the device; the model keeps the last value written. *)
Record GPDMA_Channel_TypeDef := {
  CCR : Z;
  CSR : Z;
  CFCR : Z
}.

(** One element of [gpdma.channels]: the IRQ redirector. *)
Record isr_slot := {
  func : Z;
  param : Z
}.

(** A callback invocation [func(param, flags)] made by the dispatcher. *)
Record isr_call := {
  call_func : Z;
  call_param : Z;
  call_flags : Z
}.

(** The state the driver reads and writes: the static [gpdma] structure, the
    channel register blocks, the two RCC clock gates, the NVIC vectors
    (enabled vectors with their priority), the kernel lock, and the log of
    callbacks invoked so far. *)
Record machine := {
  allocated_mask : Z;
  channels : list isr_slot;
  regs : list GPDMA_Channel_TypeDef;
  rcc_gpdma1 : bool;
  rcc_gpdma2 : bool;
  nvic : gmap nat Z;
  syslock : bool;
  isr_log : list isr_call
}.

Definition set_allocated_mask (v : Z) (m : machine) : machine :=
  {| allocated_mask := v; channels := channels m; regs := regs m;
     rcc_gpdma1 := rcc_gpdma1 m; rcc_gpdma2 := rcc_gpdma2 m;
     nvic := nvic m; syslock := syslock m; isr_log := isr_log m |}.

Definition set_channels (v : list isr_slot) (m : machine) : machine :=
  {| allocated_mask := allocated_mask m; channels := v; regs := regs m;
     rcc_gpdma1 := rcc_gpdma1 m; rcc_gpdma2 := rcc_gpdma2 m;
     nvic := nvic m; syslock := syslock m; isr_log := isr_log m |}.

Definition set_regs (v : list GPDMA_Channel_TypeDef) (m : machine) : machine :=
  {| allocated_mask := allocated_mask m; channels := channels m; regs := v;
     rcc_gpdma1 := rcc_gpdma1 m; rcc_gpdma2 := rcc_gpdma2 m;
     nvic := nvic m; syslock := syslock m; isr_log := isr_log m |}.

Definition set_rcc_gpdma1 (v : bool) (m : machine) : machine :=
  {| allocated_mask := allocated_mask m; channels := channels m;
     regs := regs m; rcc_gpdma1 := v; rcc_gpdma2 := rcc_gpdma2 m;
     nvic := nvic m; syslock := syslock m; isr_log := isr_log m |}.

Definition set_rcc_gpdma2 (v : bool) (m : machine) : machine :=
  {| allocated_mask := allocated_mask m; channels := channels m;
     regs := regs m; rcc_gpdma1 := rcc_gpdma1 m; rcc_gpdma2 := v;
     nvic := nvic m; syslock := syslock m; isr_log := isr_log m |}.

Definition set_nvic (v : gmap nat Z) (m : machine) : machine :=
  {| allocated_mask := allocated_mask m; channels := channels m;
     regs := regs m; rcc_gpdma1 := rcc_gpdma1 m; rcc_gpdma2 := rcc_gpdma2 m;
     nvic := v; syslock := syslock m; isr_log := isr_log m |}.

Definition set_syslock (v : bool) (m : machine) : machine :=
  {| allocated_mask := allocated_mask m; channels := channels m;
     regs := regs m; rcc_gpdma1 := rcc_gpdma1 m; rcc_gpdma2 := rcc_gpdma2 m;
     nvic := nvic m; syslock := v; isr_log := isr_log m |}.

Definition set_isr_log (v : list isr_call) (m : machine) : machine :=
  {| allocated_mask := allocated_mask m; channels := channels m;
     regs := regs m; rcc_gpdma1 := rcc_gpdma1 m; rcc_gpdma2 := rcc_gpdma2 m;
     nvic := nvic m; syslock := syslock m; isr_log := v |}.

(** ** The state-and-fault monad *)

(** What stops a run: an array access outside its declared bounds (undefined
    behaviour in C), or a failed debug check ([osalSysHalt]). *)
Inductive fault :=
| OutOfBounds (i : nat)
| NullPointer
| DbgHalt.

Inductive result (A : Type) :=
| Ok (a : A) (m : machine)
| Err (f : fault).
Arguments Ok {A} a m.
Arguments Err {A} f.

Definition M (A : Type) : Type := machine -> result A.

Definition ret {A} (a : A) : M A := fun m => Ok a m.

Definition bind {A B} (c : M A) (k : A -> M B) : M B :=
  fun m => match c m with
           | Ok a m' => k a m'
           | Err f => Err f
           end.

Definition raise {A} (f : fault) : M A := fun _ => Err f.
Definition get : M machine := fun m => Ok m m.
Definition modify (f : machine -> machine) : M unit := fun m => Ok tt (f m).
Definition when (b : bool) (c : M unit) : M unit := if b then c else ret tt.

Notation "'let*' x := c 'in' k" := (bind c (fun x => k))
  (at level 10, x name, c at level 99, k at level 200).
Notation "c ;; k" := (bind c (fun _ => k))
  (at level 100, right associativity).

(** ** The driver, for one platform configuration *)

Section Driver.

Variable cfg : hal_config.

(** [STM32_GPDMA_CHANNELS]: the total number of channels of all GPDMAs. *)
Definition STM32_GPDMA_CHANNELS : nat :=
  (STM32_GPDMA1_NUM_CHANNELS cfg + STM32_GPDMA2_NUM_CHANNELS cfg)%nat.

(** The descriptor table [__stm32_gpdma_channels]: the channels of GPDMA1
    first, then those of GPDMA2, each with its register block and vector. *)
Definition __stm32_gpdma_channels : list stm32_gpdma_channel_t :=
  map (fun k => {| channel := k; vector := STM32_GPDMA1_CH_NUMBER cfg k |})
      (seq 0 (STM32_GPDMA1_NUM_CHANNELS cfg))
  ++ map (fun k => {| channel := (STM32_GPDMA1_NUM_CHANNELS cfg + k)%nat;
                      vector := STM32_GPDMA2_CH_NUMBER cfg k |})
         (seq 0 (STM32_GPDMA2_NUM_CHANNELS cfg)).

(** A [const stm32_gpdma_channel_t *] into the table is the index of the entry
    it points to ([dmachp - __stm32_gpdma_channels]); as an [option], [None]
    is [NULL].

    Modelled from the spec: the macro [STM32_GPDMA_CHANNEL] of the driver's
    header; by section 3 a descriptor binds a unique index to the hardware
    handle and the vector, so the descriptor of channel [id] is the address of
    entry [id] of the table.  Forming the address reads nothing. *)
Definition STM32_GPDMA_CHANNEL (id : nat) : nat := id.

(** *** Accesses to arrays and registers, with the declared bounds *)

(** Reads [__stm32_gpdma_channels[i]]. *)
Definition table_entry (i : nat) : M stm32_gpdma_channel_t :=
  match __stm32_gpdma_channels !! i with
  | Some d => ret d
  | None => raise (OutOfBounds i)
  end.

(** Reads [gpdma.channels[i]]. *)
Definition read_slot (i : nat) : M isr_slot :=
  fun m => match channels m !! i with
           | Some s => if (i <? STM32_GPDMA_CHANNELS)%nat then Ok s m
                       else Err (OutOfBounds i)
           | None => Err (OutOfBounds i)
           end.

(** [gpdma.channels[i].func = f]. *)
Definition write_func (i : nat) (f : Z) : M unit :=
  let* s := read_slot i in
  modify (fun m =>
    set_channels (<[i := {| func := f; param := param s |}]> (channels m)) m).

(** [gpdma.channels[i].param = p]. *)
Definition write_param (i : nat) (p : Z) : M unit :=
  let* s := read_slot i in
  modify (fun m =>
    set_channels (<[i := {| func := func s; param := p |}]> (channels m)) m).

(** Reads the register block [dmachp->channel]. *)
Definition read_regs (dmachp : nat) : M GPDMA_Channel_TypeDef :=
  let* d := table_entry dmachp in
  fun m => match regs m !! channel d with
           | Some r => Ok r m
           | None => Err (OutOfBounds (channel d))
           end.

(** Stores the register block [dmachp->channel]. *)
Definition write_regs (dmachp : nat) (r : GPDMA_Channel_TypeDef) : M unit :=
  let* d := table_entry dmachp in
  modify (fun m => set_regs (<[channel d := r]> (regs m)) m).

(** [dmachp->channel->CCR = v]. *)
Definition write_CCR (dmachp : nat) (v : Z) : M unit :=
  let* r := read_regs dmachp in
  write_regs dmachp {| CCR := v; CSR := CSR r; CFCR := CFCR r |}.

(** Modelled from the spec: the hardware register contract of section 6, a
    clear register with write-1-to-clear semantics matching the status
    register's bit layout.  [dmachp->channel->CFCR = v] records the value and
    clears in [CSR] the bits set in [v]. *)
Definition write_CFCR (dmachp : nat) (v : Z) : M unit :=
  let* r := read_regs dmachp in
  write_regs dmachp
    {| CCR := CCR r; CSR := Z.land (CSR r) (not32 v); CFCR := v |}.

(** *** External collaborators *)

(** Modelled from the spec: [EnableDomain]/[DisableDomain] of section 4.3,
    idempotent switches of a clock domain ([rccEnableGPDMA1(lp)],
    [rccDisableGPDMA1()] and the same for GPDMA2 belong to the RCC header). *)
Definition rccEnableGPDMA1 (lp : bool) : M unit := modify (set_rcc_gpdma1 true).
Definition rccDisableGPDMA1 : M unit := modify (set_rcc_gpdma1 false).
Definition rccEnableGPDMA2 (lp : bool) : M unit := modify (set_rcc_gpdma2 true).
Definition rccDisableGPDMA2 : M unit := modify (set_rcc_gpdma2 false).

(** Modelled from the spec: [EnableVector(vector_id, priority)] and
    [DisableVector(vector_id)] of section 4.3, idempotent. *)
Definition nvicEnableVector (n : nat) (prio : Z) : M unit :=
  modify (fun m => set_nvic (<[n := prio]> (nvic m)) m).
Definition nvicDisableVector (n : nat) : M unit :=
  modify (fun m => set_nvic (delete n (nvic m)) m).

(** Modelled from the spec: the macro [gpdmaStreamDisable] of the driver's
    header; section 4.1 says that a claim clears any stale pending-status bits
    of the channel before it resets the control register. *)
Definition gpdmaStreamDisable (dmachp : nat) : M unit :=
  write_CFCR dmachp (uint32 (-1)).

(** The kernel lock: a critical section that masks interrupts. *)
Definition osalSysLock : M unit := modify (set_syslock true).
Definition osalSysUnlock : M unit := modify (set_syslock false).

(** Debug checks: they halt the system when the condition fails and the
    option is enabled, and are compiled out otherwise. *)
Definition osalDbgCheck (c : bool) : M unit :=
  if OSAL_DBG_ENABLE_CHECKS cfg && negb c then raise DbgHalt else ret tt.
Definition osalDbgAssert (c : bool) : M unit :=
  if OSAL_DBG_ENABLE_ASSERTS cfg && negb c then raise DbgHalt else ret tt.
Definition osalDbgCheckClassI : M unit :=
  let* m := get in
  if CH_DBG_SYSTEM_STATE_CHECK cfg && negb (syslock m) then raise DbgHalt
  else ret tt.

(** The callback [f(p, flags)] runs in the consumer; the model logs it. *)
Definition call_isr (f p flags : Z) : M unit :=
  modify (fun m =>
    set_isr_log
      ({| call_func := f; call_param := p; call_flags := flags |} :: isr_log m)
      m).

(** *** [dmaInit] *)

(** The iterations [i, i+1, ...] of the loop of [dmaInit], [count] of them. *)
Fixpoint dmaInit_loop (count i : nat) : M unit :=
  match count with
  | O => ret tt
  | S count' =>
      write_CCR i 0 ;;
      write_func i NULL ;;
      dmaInit_loop count' (S i)
  end.

Definition dmaInit : M unit :=
  modify (set_allocated_mask 0) ;;
  dmaInit_loop STM32_GPDMA_CHANNELS 0.

(** *** [gpdmaChannelAllocI] *)

(** The body of the search loop once its test has passed at index [i]. *)
Definition alloc_found (i : nat) (mask irqprio f p : Z) : M (option nat) :=
  let dmachp := STM32_GPDMA_CHANNEL i in
  (* Installs the DMA handler. *)
  write_func i f ;;
  write_param i p ;;
  modify (fun m => set_allocated_mask (Z.lor (allocated_mask m) mask) m) ;;
  (* Enabling DMA clocks required by the current channels set. *)
  when (negb (Z.land (STM32_GPDMA1_MASK_ANY cfg) mask =? 0))
       (rccEnableGPDMA1 true) ;;
  when (0 <? STM32_GPDMA2_NUM_CHANNELS cfg)%nat
       (when (negb (Z.land (STM32_GPDMA2_MASK_ANY cfg) mask =? 0))
             (rccEnableGPDMA2 true)) ;;
  (* Enables the associated IRQ vector if a callback is defined. *)
  when (negb (f =? NULL))
       (let* d := table_entry dmachp in nvicEnableVector (vector d) irqprio) ;;
  (* Putting the channel in a known state. *)
  gpdmaStreamDisable dmachp ;;
  write_CCR dmachp 0 ;;
  ret (Some dmachp).

(** The search loop from index [i], with [count] iterations left: the test
    [(available & mask) == 0U] selects the channel. *)
Fixpoint alloc_loop (count i : nat) (available irqprio f p : Z)
  : M (option nat) :=
  match count with
  | O => ret None
  | S count' =>
      let mask := bit32 i in
      if Z.land available mask =? 0
      then alloc_found i mask irqprio f p
      else alloc_loop count' (S i) available irqprio f p
  end.

(** [for (i = 0U; i <= STM32_GPDMA_CHANNELS; i++)] makes
    [STM32_GPDMA_CHANNELS + 1] iterations. *)
Definition gpdmaChannelAllocI (cmask irqprio f p : Z) : M (option nat) :=
  osalDbgCheckClassI ;;
  let* m := get in
  (* Mask of the available channels within the specified channels. *)
  let available := Z.land (allocated_mask m) cmask in
  alloc_loop (S STM32_GPDMA_CHANNELS) 0 available irqprio f p.

Definition gpdmaChannelAlloc (cmask irqprio f p : Z) : M (option nat) :=
  osalSysLock ;;
  let* dmachp := gpdmaChannelAllocI cmask irqprio f p in
  osalSysUnlock ;;
  ret dmachp.

(** *** [gpdmaChannelFreeI] *)

(** With a [NULL] descriptor the check halts when it is enabled; otherwise
    the function goes on to dereference the pointer. *)
Definition gpdmaChannelFreeI (dmachp : option nat) : M unit :=
  match dmachp with
  | None => osalDbgCheck false ;; raise NullPointer
  | Some selfindex =>
      osalDbgCheck true ;;
      (* Check if the channels is not taken. *)
      (let* m := get in
       osalDbgAssert
         (negb (Z.land (allocated_mask m) (bit32 selfindex) =? 0))) ;;
      (* Marks the channel as not allocated. *)
      modify (fun m =>
        set_allocated_mask
          (Z.land (allocated_mask m) (not32 (bit32 selfindex))) m) ;;
      (* Disables the associated IRQ vector. *)
      (let* d := table_entry selfindex in nvicDisableVector (vector d)) ;;
      (* Removes the DMA handler. *)
      write_func selfindex NULL ;;
      write_param selfindex NULL ;;
      (* Shutting down clocks that are no more required, if any. *)
      (let* m := get in
       when (Z.land (allocated_mask m) (STM32_GPDMA1_MASK_ANY cfg) =? 0)
            rccDisableGPDMA1) ;;
      when (0 <? STM32_GPDMA2_NUM_CHANNELS cfg)%nat
           (let* m := get in
            when (Z.land (allocated_mask m) (STM32_GPDMA2_MASK_ANY cfg) =? 0)
                 rccDisableGPDMA2)
  end.

(** *** [gpdmaChannelFree] *)

(** The wrapper calls [gpdmaStreamFreeI], a function that the driver file
    does not define; it is a parameter of the wrapper. *)
Definition gpdmaChannelFree (gpdmaStreamFreeI : option nat -> M unit)
    (dmachp : option nat) : M unit :=
  osalSysLock ;;
  gpdmaStreamFreeI dmachp ;;
  osalSysUnlock.

(** *** [gpdmaServeInterrupt] *)

Definition gpdmaServeInterrupt (dmachp : option nat) : M unit :=
  match dmachp with
  | None => raise NullPointer
  | Some selfindex =>
      let* r := read_regs selfindex in
      let csr := CSR r in
      write_CFCR selfindex csr ;;
      let* r' := read_regs selfindex in
      when (negb (Z.land csr (CCR r') =? 0))
           (let* s := read_slot selfindex in
            when (negb (func s =? NULL))
                 (let* s' := read_slot selfindex in
                  call_isr (func s') (param s') csr))
  end.

End Driver.

(** ** The configuration of the concrete scenario *)

(** Modelled from the spec: section 8 places channels 0-7 in domain A (GPDMA1)
    and channels 8-15 in domain B (GPDMA2); the masks [STM32_GPDMA1_MASK_ANY]
    and [STM32_GPDMA2_MASK_ANY] of the header cover exactly those channels.
    The vector numbers are sample values; all debug checks are enabled. *)
Definition scenario_cfg : hal_config :=
  {| STM32_GPDMA1_NUM_CHANNELS := 8;
     STM32_GPDMA2_NUM_CHANNELS := 8;
     STM32_GPDMA1_MASK_ANY := 0x00FF;
     STM32_GPDMA2_MASK_ANY := 0xFF00;
     STM32_GPDMA1_CH_NUMBER := fun k => (27 + k)%nat;
     STM32_GPDMA2_CH_NUMBER := fun k => (90 + k)%nat;
     OSAL_DBG_ENABLE_CHECKS := true;
     OSAL_DBG_ENABLE_ASSERTS := true;
     CH_DBG_SYSTEM_STATE_CHECK := true |}.

(** The machine at reset: static storage zeroed, registers at their reset
    value, both clock gates off, no vector enabled, and the kernel locked as
    the I-class functions require. *)
Definition reset_machine (n : nat) : machine :=
  {| allocated_mask := 0;
     channels := replicate n {| func := NULL; param := NULL |};
     regs := replicate n {| CCR := 0; CSR := 0; CFCR := 0 |};
     rcc_gpdma1 := false;
     rcc_gpdma2 := false;
     nvic := ∅;
     syslock := true;
     isr_log := [] |}.

(** The callback and parameter of a first consumer and of a second one. *)
Definition isr_a : Z := 0x08001000.
Definition arg_a : Z := 0x20000100.
Definition isr_b : Z := 0x08002000.
Definition arg_b : Z := 0x20000200.

(** The machine after [dmaInit] and one claim of any channel by the first
    consumer at priority 5: channel 0 is owned. *)
Definition claimed_machine : machine :=
  {| allocated_mask := 0x0001;
     channels := <[0%nat := {| func := isr_a; param := arg_a |}]>
                   (replicate 16 {| func := NULL; param := NULL |});
     regs := <[0%nat := {| CCR := 0; CSR := 0; CFCR := 0xFFFFFFFF |}]>
               (replicate 16 {| CCR := 0; CSR := 0; CFCR := 0 |});
     rcc_gpdma1 := true;
     rcc_gpdma2 := false;
     nvic := {[ 27%nat := 5 ]};
     syslock := true;
     isr_log := [] |}.

(** The same machine once the consumer has enabled the transfer-complete
    interrupt of channel 0 (bit 8 of [CCR]) and the transfer has completed
    (bit 8 of [CSR]). *)
Definition transfer_done_machine : machine :=
  set_regs (<[0%nat := {| CCR := 0x0101; CSR := 0x0100; CFCR := 0xFFFFFFFF |}]>
              (regs claimed_machine))
           claimed_machine.

(** The claimed machine after the release of channel 0. *)
Definition released_machine : machine :=
  {| allocated_mask := 0x0000;
     channels := replicate 16 {| func := NULL; param := NULL |};
     regs := regs claimed_machine;
     rcc_gpdma1 := false;
     rcc_gpdma2 := false;
     nvic := ∅;
     syslock := true;
     isr_log := [] |}.

(** The released machine after an interrupt service of channel 0: the status
    read, zero, has been written to the clear register. *)
Definition serviced_machine : machine :=
  set_regs (replicate 16 {| CCR := 0; CSR := 0; CFCR := 0 |}) released_machine.

(** The claimed machine after a second [dmaInit]: channel 0 is free again,
    its slot keeps the parameter, and the clock gate of GPDMA1 and the vector
    of channel 0 stay enabled. *)
Definition reinit_machine : machine :=
  {| allocated_mask := 0x0000;
     channels := <[0%nat := {| func := NULL; param := arg_a |}]>
                   (replicate 16 {| func := NULL; param := NULL |});
     regs := regs claimed_machine;
     rcc_gpdma1 := true;
     rcc_gpdma2 := false;
     nvic := {[ 27%nat := 5 ]};
     syslock := true;
     isr_log := [] |}.

(** The scenario built without debug checks. *)
Definition release_build_cfg : hal_config :=
  {| STM32_GPDMA1_NUM_CHANNELS := 8;
     STM32_GPDMA2_NUM_CHANNELS := 8;
     STM32_GPDMA1_MASK_ANY := 0x00FF;
     STM32_GPDMA2_MASK_ANY := 0xFF00;
     STM32_GPDMA1_CH_NUMBER := fun k => (27 + k)%nat;
     STM32_GPDMA2_CH_NUMBER := fun k => (90 + k)%nat;
     OSAL_DBG_ENABLE_CHECKS := false;
     OSAL_DBG_ENABLE_ASSERTS := false;
     CH_DBG_SYSTEM_STATE_CHECK := false |}.

(** The machine at reset with the clock gate of GPDMA1 left on, as a boot
    loader that has used the controller may leave it. *)
Definition gate_on_machine : machine := set_rcc_gpdma1 true (reset_machine 16).

(** [n] claims in a row with the same arguments. *)
Fixpoint claims (cfg : hal_config) (n : nat) (cmask irqprio f p : Z)
  : M unit :=
  match n with
  | O => ret tt
  | S n' =>
      gpdmaChannelAllocI cfg cmask irqprio f p ;;
      claims cfg n' cmask irqprio f p
  end.

(** ** Specification vocabulary *)

(** Channel [i] is owned when bit [i] of the mask of allocated channels is
    set. *)
Definition owned (m : machine) (i : nat) : Prop :=
  Z.testbit (allocated_mask m) (Z.of_nat i) = true.

(** Bit [i] of a candidate set. *)
Definition in_cmask (cmask : Z) (i : nat) : Prop :=
  Z.testbit cmask (Z.of_nat i) = true.

(** The index at which the test of the search loop first passes, if any, among
    the [count] indices from [i]. *)
Fixpoint scan (count i : nat) (available : Z) : option nat :=
  match count with
  | O => None
  | S count' =>
      if Z.land available (bit32 i) =? 0 then Some i
      else scan count' (S i) available
  end.

(** The collaborators, the lock and the log are the same in [m] and [m']. *)
Definition same_collaborators (m m' : machine) : Prop :=
  rcc_gpdma1 m' = rcc_gpdma1 m /\ rcc_gpdma2 m' = rcc_gpdma2 m /\
  nvic m' = nvic m /\ syslock m' = syslock m /\ isr_log m' = isr_log m.

(** The callback invocation that [gpdmaServeInterrupt] makes for slot [s]
    and status [csr]. *)
Definition dispatch (s : isr_slot) (csr : Z) : isr_call :=
  {| call_func := func s; call_param := param s; call_flags := csr |}.

(** Channel [k] fails the test of the search loop: it is owned and in the
    candidate set. *)
Definition taken (cmask : Z) (m : machine) (k : nat) : Prop :=
  owned m k /\ in_cmask cmask k.

(** What [dmaInit] does to a slot and to a register block. *)
Definition clear_func (s : isr_slot) : isr_slot :=
  {| func := NULL; param := param s |}.
Definition clear_CCR (r : GPDMA_Channel_TypeDef) : GPDMA_Channel_TypeDef :=
  {| CCR := 0; CSR := CSR r; CFCR := CFCR r |}.

Section Specification.

Variable cfg : hal_config.

Local Abbreviation N := (STM32_GPDMA_CHANNELS cfg).

(** The arrays have their declared sizes. *)
Definition wf (m : machine) : Prop :=
  length (channels m) = N /\ length (regs m) = N.

(** The table of the source has at most eight entries per controller. *)
Definition cfg_channels_ok : Prop :=
  (STM32_GPDMA1_NUM_CHANNELS cfg <= 8)%nat /\
  (STM32_GPDMA2_NUM_CHANNELS cfg <= 8)%nat.

(** The two domain masks cover the channels of their controller, in table
    order, and nothing else. *)
Definition masks_ok : Prop :=
  forall j : nat,
    Z.testbit (STM32_GPDMA1_MASK_ANY cfg) (Z.of_nat j)
    = bool_decide (j < STM32_GPDMA1_NUM_CHANNELS cfg)%nat /\
    Z.testbit (STM32_GPDMA2_MASK_ANY cfg) (Z.of_nat j)
    = bool_decide (STM32_GPDMA1_NUM_CHANNELS cfg <= j < N)%nat.

(** The effects of the body of the search loop at entry [i] of the table,
    whose vector is [v], with [mask] the bit of the entry. *)
Definition alloc_effects (i v : nat) (mask irqprio f p : Z)
    (m m' : machine) : Prop :=
  __stm32_gpdma_channels cfg !! i = Some {| channel := i; vector := v |} /\
  allocated_mask m' = Z.lor (allocated_mask m) mask /\
  channels m' = <[i := {| func := f; param := p |}]> (channels m) /\
  rcc_gpdma1 m' =
    (if Z.land (STM32_GPDMA1_MASK_ANY cfg) mask =? 0 then rcc_gpdma1 m
     else true) /\
  rcc_gpdma2 m' =
    (if (0 <? STM32_GPDMA2_NUM_CHANNELS cfg)%nat
     then if Z.land (STM32_GPDMA2_MASK_ANY cfg) mask =? 0
          then rcc_gpdma2 m else true
     else rcc_gpdma2 m) /\
  nvic m' = (if f =? NULL then nvic m else <[v := irqprio]> (nvic m)) /\
  syslock m' = syslock m /\
  isr_log m' = isr_log m /\
  exists r, regs m' = <[i := r]> (regs m) /\ CCR r = 0.

(** The effects of a release that completes on entry [i] of the table. *)
Definition free_effects (i v : nat) (m m' : machine) : Prop :=
  __stm32_gpdma_channels cfg !! i = Some {| channel := i; vector := v |} /\
  allocated_mask m' = Z.land (allocated_mask m) (not32 (bit32 i)) /\
  channels m' = <[i := {| func := NULL; param := NULL |}]> (channels m) /\
  rcc_gpdma1 m' =
    (if Z.land (allocated_mask m') (STM32_GPDMA1_MASK_ANY cfg) =? 0
     then false else rcc_gpdma1 m) /\
  rcc_gpdma2 m' =
    (if (0 <? STM32_GPDMA2_NUM_CHANNELS cfg)%nat
     then if Z.land (allocated_mask m') (STM32_GPDMA2_MASK_ANY cfg) =? 0
          then false else rcc_gpdma2 m
     else rcc_gpdma2 m) /\
  nvic m' = delete v (nvic m) /\
  syslock m' = syslock m /\
  isr_log m' = isr_log m /\
  regs m' = regs m.

(** The assertion of [gpdmaChannelFreeI] lets the release of [i] pass. *)
Definition free_allowed (i : nat) (m : machine) : Prop :=
  OSAL_DBG_ENABLE_ASSERTS cfg = true ->
  Z.land (allocated_mask m) (bit32 i) <> 0.

(** The machine before [dmaInit]: the arrays have their sizes and both clock
    gates are off, as the reset of the RCC leaves them. *)
Definition power_on (m : machine) : Prop :=
  wf m /\ rcc_gpdma1 m = false /\ rcc_gpdma2 m = false.

(** The states that the driver reaches from [dmaInit] by its operations. *)
Inductive reachable : machine -> Prop :=
| reach_init boot m :
    power_on boot -> dmaInit cfg boot = Ok tt m -> reachable m
| reach_lock m m' :
    reachable m -> osalSysLock m = Ok tt m' -> reachable m'
| reach_unlock m m' :
    reachable m -> osalSysUnlock m = Ok tt m' -> reachable m'
| reach_claim m cmask irqprio f p r m' :
    reachable m ->
    gpdmaChannelAllocI cfg cmask irqprio f p m = Ok r m' -> reachable m'
| reach_release m dmachp m' :
    reachable m -> gpdmaChannelFreeI cfg dmachp m = Ok tt m' -> reachable m'
| reach_serve m dmachp m' :
    reachable m -> gpdmaServeInterrupt cfg dmachp m = Ok tt m' -> reachable m'.

(** Only bits of channels of the table are set in the mask. *)
Definition mask_in_range (m : machine) : Prop :=
  forall k, owned m k -> (k < N)%nat.

(** A callback is installed only in the slot of an owned channel. *)
Definition callback_inv (m : machine) : Prop :=
  forall i s, channels m !! i = Some s -> func s <> NULL -> owned m i.

(** Some channel of GPDMA1 (of GPDMA2) is owned. *)
Definition domain1_owned (m : machine) : Prop :=
  exists i, (i < STM32_GPDMA1_NUM_CHANNELS cfg)%nat /\ owned m i.
Definition domain2_owned (m : machine) : Prop :=
  exists i, (STM32_GPDMA1_NUM_CHANNELS cfg <= i < N)%nat /\ owned m i.

(** A clock gate is on exactly when a channel of its domain is owned. *)
Definition clock_inv (m : machine) : Prop :=
  (rcc_gpdma1 m = true <-> domain1_owned m) /\
  (rcc_gpdma2 m = true <-> domain2_owned m).

(** The caller holds the kernel lock whenever the I-class check is
    compiled in. *)
Definition class_I_ok (m : machine) : Prop :=
  CH_DBG_SYSTEM_STATE_CHECK cfg = true -> syslock m = true.

(** Every enabled vector is the vector of an owned channel. *)
Definition nvic_inv (m : machine) : Prop :=
  forall v prio, nvic m !! v = Some prio ->
    exists i d, __stm32_gpdma_channels cfg !! i = Some d /\
                vector d = v /\ owned m i.

End Specification.

(** ** Bit-level facts *)

Lemma bit32_pow2 (i : nat) : (i < 32)%nat -> bit32 i = 2 ^ Z.of_nat i.
Proof.
  intros Hi. unfold bit32, uint32.
  rewrite Z.shiftl_mul_pow2 by lia. rewrite Z.mul_1_l.
  apply Z.mod_small. split; [lia |].
  apply Z.pow_lt_mono_r; lia.
Qed.

Lemma bit32_testbit (i j : nat) :
  (i < 32)%nat ->
  Z.testbit (bit32 i) (Z.of_nat j) = bool_decide (i = j).
Proof.
  intros Hi. rewrite bit32_pow2 by done.
  rewrite Z.pow2_bits_eqb by lia.
  case_bool_decide; [apply Z.eqb_eq | apply Z.eqb_neq]; lia.
Qed.

Lemma not32_testbit (x : Z) (j : nat) :
  Z.testbit (not32 x) (Z.of_nat j)
  = bool_decide (j < 32)%nat && negb (Z.testbit x (Z.of_nat j)).
Proof.
  unfold not32, uint32. case_bool_decide as Hj; simpl.
  - rewrite Z.mod_pow2_bits_low by lia. apply Z.lnot_spec. lia.
  - apply Z.mod_pow2_bits_high. lia.
Qed.

(** Two masks share no bit exactly when their conjunction is zero. *)
Lemma land_eq_0_iff (a b : Z) :
  Z.land a b = 0 <->
  forall j : nat, Z.testbit a (Z.of_nat j) && Z.testbit b (Z.of_nat j) = false.
Proof.
  split.
  - intros H j. rewrite <- Z.land_spec, H. apply Z.bits_0.
  - intros H. apply Z.bits_inj'. intros n Hn.
    rewrite Z.land_spec, Z.bits_0.
    specialize (H (Z.to_nat n)). rewrite Z2Nat.id in H by done. exact H.
Qed.

Lemma land_bit32_eq_0 (a : Z) (i : nat) :
  (i < 32)%nat ->
  (Z.land a (bit32 i) =? 0) = negb (Z.testbit a (Z.of_nat i)).
Proof.
  intros Hi.
  destruct (Z.testbit a (Z.of_nat i)) eqn:Hb; simpl.
  - apply Z.eqb_neq. intros H0.
    pose proof (proj1 (land_eq_0_iff _ _) H0 i) as H.
    rewrite Hb, bit32_testbit, bool_decide_eq_true_2 in H by done.
    discriminate.
  - apply Z.eqb_eq, land_eq_0_iff. intros j.
    rewrite bit32_testbit by done.
    case_bool_decide; subst; [by rewrite Hb | apply andb_false_r].
Qed.

(** ** Running the monadic code symbolically *)

Ltac unfold_prims :=
  unfold gpdmaStreamDisable;
  unfold write_func, write_param, write_CCR, write_CFCR;
  unfold read_slot, write_regs, read_regs;
  unfold table_entry;
  unfold rccEnableGPDMA1, rccEnableGPDMA2, rccDisableGPDMA1,
    rccDisableGPDMA2, nvicEnableVector, nvicDisableVector, osalSysLock,
    osalSysUnlock, osalDbgCheck, osalDbgAssert, osalDbgCheckClassI, call_isr,
    STM32_GPDMA_CHANNEL, when, bind, modify, get, ret, raise.

Ltac lookup_step :=
  match goal with
  | |- context [ <[?i:=?x]> ?l !! ?i ] =>
      rewrite (list_lookup_insert_eq l i x) by (rewrite ?length_insert; lia)
  | H : ?l !! ?i = Some _ |- context [ ?l !! ?i ] => rewrite H
  | H : ?l !! ?i = None |- context [ ?l !! ?i ] => rewrite H
  | H : (?i < ?n)%nat |- context [ (?i <? ?n)%nat ] =>
      rewrite (proj2 (Nat.ltb_lt i n) H)
  end.

Ltac run := repeat (simpl; try lookup_step).

(** ** Facts that hold for every configuration *)

Section Proofs.

Variable cfg : hal_config.

Local Abbreviation N := (STM32_GPDMA_CHANNELS cfg).

Lemma table_lookup (i : nat) :
  (i < N)%nat ->
  exists v,
    __stm32_gpdma_channels cfg !! i = Some {| channel := i; vector := v |}.
Proof.
  intros Hi. unfold __stm32_gpdma_channels, STM32_GPDMA_CHANNELS in *.
  destruct (decide (i < STM32_GPDMA1_NUM_CHANNELS cfg)%nat) as [H1 | H1].
  - eexists.
    rewrite lookup_app_l by (rewrite length_map, length_seq; lia).
    rewrite list_lookup_fmap, lookup_seq_lt by lia. reflexivity.
  - eexists.
    rewrite lookup_app_r by (rewrite length_map, length_seq; lia).
    rewrite length_map, length_seq.
    rewrite list_lookup_fmap, lookup_seq_lt by lia. simpl.
    do 3 f_equal. lia.
Qed.

Lemma table_lookup_ge (i : nat) :
  (N <= i)%nat -> __stm32_gpdma_channels cfg !! i = None.
Proof.
  intros Hi. apply lookup_ge_None_2.
  unfold __stm32_gpdma_channels, STM32_GPDMA_CHANNELS in *.
  rewrite length_app, !length_map, !length_seq. lia.
Qed.

(** *** The body of the search loop *)

(** On a valid index the body runs to completion. *)
Lemma alloc_found_ok i mask prio f p m :
  wf cfg m -> (i < N)%nat ->
  exists m' v,
    alloc_found cfg i mask prio f p m = Ok (Some i) m' /\
    alloc_effects cfg i v mask prio f p m m'.
Proof.
  intros [Hc Hr] Hi.
  destruct (lookup_lt_is_Some_2 (channels m) i) as [s Hs]; [lia |].
  destruct (lookup_lt_is_Some_2 (regs m) i) as [r Hr']; [lia |].
  destruct (table_lookup i Hi) as [v Hd].
  unfold alloc_effects, alloc_found. unfold_prims. run.
  destruct (Z.land (STM32_GPDMA1_MASK_ANY cfg) mask =? 0);
    destruct (0 <? STM32_GPDMA2_NUM_CHANNELS cfg)%nat;
    destruct (Z.land (STM32_GPDMA2_MASK_ANY cfg) mask =? 0);
    destruct (f =? NULL); run.
  all: eexists; exists v; (split; [reflexivity |]); simpl.
  all: rewrite !list_insert_insert_eq.
  all: do 8 (split; [reflexivity |]).
  all: eexists; split; reflexivity.
Qed.

(** On an index past the end the first slot access is out of bounds. *)
Lemma alloc_found_oob i mask prio f p m :
  (N <= i)%nat -> alloc_found cfg i mask prio f p m = Err (OutOfBounds i).
Proof.
  intros Hi. unfold alloc_found. unfold_prims.
  destruct (channels m !! i); [| reflexivity].
  rewrite (proj2 (Nat.ltb_ge i N) Hi). reflexivity.
Qed.

Lemma alloc_effects_wf i v mask prio f p m m' :
  wf cfg m -> alloc_effects cfg i v mask prio f p m m' -> wf cfg m'.
Proof.
  intros [Hc Hr] (_ & _ & Hch & _ & _ & _ & _ & _ & r & Hregs & _).
  split; [rewrite Hch | rewrite Hregs]; by rewrite length_insert.
Qed.

(** *** The search loop *)

Lemma alloc_loop_scan count i available prio f p m :
  alloc_loop cfg count i available prio f p m =
  match scan count i available with
  | Some j => alloc_found cfg j (bit32 j) prio f p m
  | None => Ok None m
  end.
Proof.
  revert i. induction count as [| count IH]; intros i; simpl; [done |].
  destruct (Z.land available (bit32 i) =? 0); [done | apply IH].
Qed.

Lemma scan_Some count i available j :
  scan count i available = Some j ->
  (i <= j < i + count)%nat /\
  Z.land available (bit32 j) = 0 /\
  forall k, (i <= k < j)%nat -> Z.land available (bit32 k) <> 0.
Proof.
  revert i. induction count as [| count IH]; intros i; simpl; [done |].
  destruct (Z.land available (bit32 i) =? 0) eqn:E.
  - intros [= <-]. apply Z.eqb_eq in E. repeat split; [lia .. | done | lia].
  - intros H. apply IH in H as (Hr & Hz & Hlow).
    repeat split; [lia .. | done |].
    intros k Hk. destruct (decide (k = i)) as [-> | Hne].
    + by apply Z.eqb_neq.
    + apply Hlow. lia.
Qed.

Lemma scan_None count i available k :
  scan count i available = None ->
  (i <= k < i + count)%nat -> Z.land available (bit32 k) <> 0.
Proof.
  revert i. induction count as [| count IH]; intros i; simpl; [lia |].
  destruct (Z.land available (bit32 i) =? 0) eqn:E; [done |].
  intros H Hk. destruct (decide (k = i)) as [-> | Hne].
  - by apply Z.eqb_neq.
  - apply (IH (S i)); [done | lia].
Qed.

(** [gpdmaChannelAllocI] is its debug check followed by the body at the index
    that the scan selects. *)
Lemma gpdmaChannelAllocI_scan cmask prio f p m :
  gpdmaChannelAllocI cfg cmask prio f p m =
  if CH_DBG_SYSTEM_STATE_CHECK cfg && negb (syslock m) then Err DbgHalt
  else match scan (S N) 0 (Z.land (allocated_mask m) cmask) with
       | Some j => alloc_found cfg j (bit32 j) prio f p m
       | None => Ok None m
       end.
Proof.
  unfold gpdmaChannelAllocI, osalDbgCheckClassI, bind, get, raise, ret.
  destruct (CH_DBG_SYSTEM_STATE_CHECK cfg && negb (syslock m)); [done |].
  apply alloc_loop_scan.
Qed.

(** A claim that completes either selected a valid index [j], the first one
    to pass the loop test, and ran the body there, or selected nothing and
    changed nothing. *)
Lemma gpdmaChannelAllocI_inv cmask prio f p m r m' :
  wf cfg m ->
  gpdmaChannelAllocI cfg cmask prio f p m = Ok r m' ->
  (r = None /\ m' = m) \/
  (exists j v, r = Some j /\ (j < N)%nat /\
               Z.land (Z.land (allocated_mask m) cmask) (bit32 j) = 0 /\
               alloc_effects cfg j v (bit32 j) prio f p m m').
Proof.
  intros Hwf. rewrite gpdmaChannelAllocI_scan.
  destruct (CH_DBG_SYSTEM_STATE_CHECK cfg && negb (syslock m)); [done |].
  destruct (scan _ _ _) as [j |] eqn:Hscan.
  - intros H. right. exists j.
    apply scan_Some in Hscan as (Hr & Hz & _).
    destruct (decide (j < N)%nat) as [Hj | Hj].
    + destruct (alloc_found_ok j (bit32 j) prio f p m Hwf Hj)
        as (m1 & v & Hrun & He).
      rewrite Hrun in H. injection H as <- <-. by exists v.
    + rewrite alloc_found_oob in H by lia. done.
  - intros [= <- <-]. by left.
Qed.

(** The channel that a claim returns is the one that the scan selects. *)
Lemma gpdmaChannelAllocI_selected cmask prio f p m j m' :
  wf cfg m ->
  gpdmaChannelAllocI cfg cmask prio f p m = Ok (Some j) m' ->
  scan (S N) 0 (Z.land (allocated_mask m) cmask) = Some j.
Proof.
  intros Hwf. rewrite gpdmaChannelAllocI_scan.
  destruct (CH_DBG_SYSTEM_STATE_CHECK cfg && negb (syslock m)); [done |].
  destruct (scan _ _ _) as [j' |] eqn:Hscan; [| done].
  intros H. destruct (decide (j' < N)%nat) as [Hj | Hj].
  - destruct (alloc_found_ok j' (bit32 j') prio f p m Hwf Hj)
      as (m1 & v & Hrun & _).
    rewrite Hrun in H. by injection H as <- _.
  - rewrite alloc_found_oob in H by lia. done.
Qed.

(** *** Release *)

Lemma gpdmaChannelFreeI_ok i m :
  wf cfg m -> (i < N)%nat -> free_allowed cfg i m ->
  exists m' v, gpdmaChannelFreeI cfg (Some i) m = Ok tt m' /\
               free_effects cfg i v m m'.
Proof.
  intros [Hc Hr] Hi Hallowed.
  destruct (lookup_lt_is_Some_2 (channels m) i) as [s Hs]; [lia |].
  destruct (table_lookup i Hi) as [v Hd].
  unfold free_effects, gpdmaChannelFreeI. unfold_prims. run.
  rewrite andb_false_r. simpl.
  assert (OSAL_DBG_ENABLE_ASSERTS cfg
          && negb (negb (Z.land (allocated_mask m) (bit32 i) =? 0)) = false)
    as ->.
  { unfold free_allowed in Hallowed.
    destruct (OSAL_DBG_ENABLE_ASSERTS cfg); [| done]. simpl.
    rewrite negb_involutive. apply Z.eqb_neq. by apply Hallowed. }
  run.
  destruct (Z.land (Z.land (allocated_mask m) (not32 (bit32 i)))
              (STM32_GPDMA1_MASK_ANY cfg) =? 0) eqn:E1;
    destruct (0 <? STM32_GPDMA2_NUM_CHANNELS cfg)%nat;
    run;
    try destruct (Z.land (Z.land (allocated_mask m) (not32 (bit32 i)))
                    (STM32_GPDMA2_MASK_ANY cfg) =? 0) eqn:E2;
    run.
  all: eexists; exists v; (split; [reflexivity |]); simpl.
  all: rewrite list_insert_insert_eq, ?E1, ?E2.
  all: repeat split; reflexivity.
Qed.

(** A release that completes was the release of a table entry. *)
Lemma gpdmaChannelFreeI_inv d m u m' :
  wf cfg m ->
  gpdmaChannelFreeI cfg d m = Ok u m' ->
  exists i v, d = Some i /\ (i < N)%nat /\ free_effects cfg i v m m'.
Proof.
  intros Hwf H. destruct d as [i |].
  - destruct (decide (i < N)%nat) as [Hi | Hi].
    + assert (free_allowed cfg i m \/
              (OSAL_DBG_ENABLE_ASSERTS cfg = true /\
               Z.land (allocated_mask m) (bit32 i) = 0)) as [Ha | [EA EZ]].
      { unfold free_allowed.
        destruct (OSAL_DBG_ENABLE_ASSERTS cfg); [| by left].
        destruct (Z.eq_dec (Z.land (allocated_mask m) (bit32 i)) 0);
          [by right | by left]. }
      * destruct (gpdmaChannelFreeI_ok i m Hwf Hi Ha) as (m1 & v & Hrun & He).
        rewrite Hrun in H. injection H as _ <-. by exists i, v.
      * revert H. unfold gpdmaChannelFreeI. unfold_prims. simpl.
        rewrite andb_false_r, EA, EZ. done.
    + revert H. unfold gpdmaChannelFreeI. unfold_prims. simpl.
      rewrite andb_false_r, table_lookup_ge by lia. simpl.
      by destruct (_ && _).
  - revert H. unfold gpdmaChannelFreeI. unfold_prims. simpl.
    by destruct (_ && _).
Qed.

Lemma free_effects_wf i v m m' :
  wf cfg m -> free_effects cfg i v m m' -> wf cfg m'.
Proof.
  intros [Hc Hr] (_ & _ & Hch & _ & _ & _ & _ & _ & Hregs).
  split; [rewrite Hch, length_insert | rewrite Hregs]; done.
Qed.

(** *** Initialisation *)

Lemma dmaInit_loop_ok count i m :
  wf cfg m -> (i + count <= N)%nat ->
  exists m', dmaInit_loop cfg count i m = Ok tt m' /\
    wf cfg m' /\
    allocated_mask m' = allocated_mask m /\
    same_collaborators m m' /\
    (forall j, (j < i)%nat ->
       channels m' !! j = channels m !! j /\ regs m' !! j = regs m !! j) /\
    (forall j s, (i <= j < i + count)%nat ->
       channels m' !! j = Some s -> func s = NULL) /\
    (forall j r, (i <= j < i + count)%nat ->
       regs m' !! j = Some r -> CCR r = 0).
Proof.
  revert i m. induction count as [| count IH]; intros i m Hwf Hle.
  - exists m. simpl. unfold ret, same_collaborators.
    repeat split; try done; try apply Hwf; intros; lia.
  - destruct Hwf as [Hc Hr].
    destruct (lookup_lt_is_Some_2 (channels m) i) as [s Hs]; [lia |].
    destruct (lookup_lt_is_Some_2 (regs m) i) as [r Hr']; [lia |].
    destruct (table_lookup i) as [v Hd]; [lia |].
    assert (i < N)%nat as Hi by lia.
    simpl. unfold_prims. run.
    match goal with
    | |- context [ dmaInit_loop cfg count (S i) ?m1 ] =>
        destruct (IH (S i) m1) as
          (m' & Hrun & Hwf' & Hmask & Hsame & Hlow & Hfunc & Hccr)
    end.
    { split; simpl; rewrite length_insert; done. }
    { lia. }
    rewrite Hrun. exists m'. simpl in *.
    do 4 (split; [done |]). split; [| split].
    + intros j Hj. destruct (Hlow j) as [Hj1 Hj2]; [lia |].
      rewrite Hj1, Hj2. split; apply list_lookup_insert_ne; lia.
    + intros j s' Hj Hs'. destruct (decide (j = i)) as [-> | Hne].
      * destruct (Hlow i) as [Hj' _]; [lia |].
        rewrite Hj', list_lookup_insert_eq in Hs' by lia.
        by injection Hs' as <-.
      * apply (Hfunc j); [lia | done].
    + intros j r' Hj Hr''. destruct (decide (j = i)) as [-> | Hne].
      * destruct (Hlow i) as [_ Hj']; [lia |].
        rewrite Hj', list_lookup_insert_eq in Hr'' by lia.
        by injection Hr'' as <-.
      * apply (Hccr j); [lia | done].
Qed.

(** [dmaInit] completes on a machine whose arrays have their sizes: no
    channel is allocated, no callback is installed, every control register
    is zero, and the collaborators are not touched. *)
Lemma dmaInit_ok m :
  wf cfg m ->
  exists m', dmaInit cfg m = Ok tt m' /\
    wf cfg m' /\
    allocated_mask m' = 0 /\
    same_collaborators m m' /\
    (forall j s, channels m' !! j = Some s -> func s = NULL) /\
    (forall j r, regs m' !! j = Some r -> CCR r = 0).
Proof.
  intros Hwf. unfold dmaInit, bind, modify.
  destruct (dmaInit_loop_ok N 0 (set_allocated_mask 0 m))
    as (m' & Hrun & Hwf' & Hmask & Hsame & _ & Hfunc & Hccr); [done | lia |].
  exists m'. rewrite Hrun. do 4 (split; [done |]). split.
  - intros j s Hs. apply (Hfunc j s); [| done].
    apply lookup_lt_Some in Hs. destruct Hwf' as [Hc _]. lia.
  - intros j r Hr. apply (Hccr j r); [| done].
    apply lookup_lt_Some in Hr. destruct Hwf' as [_ Hc]. lia.
Qed.

(** *** Interrupt service *)

Lemma gpdmaServeInterrupt_ok i m r s :
  wf cfg m -> (i < N)%nat ->
  regs m !! i = Some r -> channels m !! i = Some s ->
  exists m', gpdmaServeInterrupt cfg (Some i) m = Ok tt m' /\
    regs m' = <[i := {| CCR := CCR r;
                        CSR := Z.land (CSR r) (not32 (CSR r));
                        CFCR := CSR r |}]> (regs m) /\
    isr_log m' =
      (if negb (Z.land (CSR r) (CCR r) =? 0) && negb (func s =? NULL)
       then dispatch s (CSR r) :: isr_log m else isr_log m) /\
    allocated_mask m' = allocated_mask m /\
    channels m' = channels m /\
    rcc_gpdma1 m' = rcc_gpdma1 m /\ rcc_gpdma2 m' = rcc_gpdma2 m /\
    nvic m' = nvic m /\ syslock m' = syslock m.
Proof.
  intros [Hc Hr] Hi Hregs Hslot.
  destruct (table_lookup i Hi) as [v Hd].
  unfold gpdmaServeInterrupt. unfold_prims. run.
  destruct (Z.land (CSR r) (CCR r) =? 0); run;
    [| destruct (func s =? NULL); run];
    eexists; (split; [reflexivity |]); simpl; repeat split; reflexivity.
Qed.

Lemma gpdmaServeInterrupt_inv d m u m' :
  wf cfg m ->
  gpdmaServeInterrupt cfg d m = Ok u m' ->
  wf cfg m' /\ allocated_mask m' = allocated_mask m /\
  channels m' = channels m /\
  rcc_gpdma1 m' = rcc_gpdma1 m /\ rcc_gpdma2 m' = rcc_gpdma2 m.
Proof.
  intros Hwf H. destruct d as [i |]; [| done].
  destruct (decide (i < N)%nat) as [Hi | Hi].
  - destruct Hwf as [Hc Hr].
    destruct (lookup_lt_is_Some_2 (channels m) i) as [s Hs]; [lia |].
    destruct (lookup_lt_is_Some_2 (regs m) i) as [r Hr']; [lia |].
    destruct (gpdmaServeInterrupt_ok i m r s) as
      (m1 & Hrun & Hregs & _ & Hmask & Hch & H1 & H2 & _); [done .. |].
    rewrite Hrun in H. injection H as _ <-.
    repeat split; try done.
    + by rewrite Hch.
    + by rewrite Hregs, length_insert.
  - revert H. unfold gpdmaServeInterrupt. unfold_prims. simpl.
    by rewrite table_lookup_ge by lia.
Qed.

End Proofs.

(** ** Ownership bits across a claim and a release *)

Lemma set_bit32_testbit (a : Z) (j k : nat) :
  (j < 32)%nat ->
  Z.testbit (Z.lor a (bit32 j)) (Z.of_nat k)
  = Z.testbit a (Z.of_nat k) || bool_decide (j = k).
Proof. intros Hj. by rewrite Z.lor_spec, bit32_testbit. Qed.

Lemma clear_bit32_testbit (a : Z) (j k : nat) :
  (j < 32)%nat ->
  Z.testbit (Z.land a (not32 (bit32 j))) (Z.of_nat k)
  = Z.testbit a (Z.of_nat k)
    && (bool_decide (k < 32)%nat && negb (bool_decide (j = k))).
Proof. intros Hj. by rewrite Z.land_spec, not32_testbit, bit32_testbit. Qed.

Lemma not32_nonneg (x : Z) : 0 <= not32 x.
Proof. unfold not32, uint32. apply Z.mod_pos_bound. lia. Qed.

(** A non-zero conjunction has a bit that both masks share. *)
Lemma land_neq_0_ex (a b : Z) :
  0 <= a -> Z.land a b <> 0 ->
  exists k : nat,
    Z.testbit a (Z.of_nat k) = true /\ Z.testbit b (Z.of_nat k) = true.
Proof.
  intros Ha Hne.
  assert (0 <= Z.land a b) as Hx by (apply Z.land_nonneg; by left).
  assert (Z.testbit (Z.land a b) (Z.log2 (Z.land a b)) = true) as Hbit
    by (apply Z.bit_log2; lia).
  exists (Z.to_nat (Z.log2 (Z.land a b))).
  rewrite Z2Nat.id by apply Z.log2_nonneg.
  rewrite Z.land_spec in Hbit. by apply andb_true_iff in Hbit.
Qed.

Section Invariants.

Variable cfg : hal_config.

Local Abbreviation N := (STM32_GPDMA_CHANNELS cfg).
Local Abbreviation N1 := (STM32_GPDMA1_NUM_CHANNELS cfg).

Hypothesis Hcfg : cfg_channels_ok cfg.

Lemma channels_lt_32 (j : nat) : (j < N)%nat -> (j < 32)%nat.
Proof. destruct Hcfg. unfold STM32_GPDMA_CHANNELS. lia. Qed.

Lemma reachable_wf m : reachable cfg m -> wf cfg m.
Proof.
  induction 1 as [boot m [Hwf _] Hrun | m m' _ IH Hrun | m m' _ IH Hrun
                 | m cmask prio f p r m' _ IH Hrun | m d m' _ IH Hrun
                 | m d m' _ IH Hrun].
  - destruct (dmaInit_ok cfg boot Hwf) as (m1 & Hrun1 & Hwf1 & _).
    rewrite Hrun1 in Hrun. by injection Hrun as <-.
  - injection Hrun as <-. exact IH.
  - injection Hrun as <-. exact IH.
  - apply gpdmaChannelAllocI_inv in Hrun
      as [[_ ->] | (j & v & _ & _ & _ & He)]; [done | | done].
    by eapply alloc_effects_wf.
  - apply gpdmaChannelFreeI_inv in Hrun as (i & v & _ & _ & He); [| done].
    by eapply free_effects_wf.
  - by apply gpdmaServeInterrupt_inv in Hrun as [Hwf _].
Qed.

(** *** Callback slots and ownership bits *)

Lemma alloc_effects_owned j v prio f p m m' k :
  (j < N)%nat ->
  alloc_effects cfg j v (bit32 j) prio f p m m' ->
  owned m' k <-> owned m k \/ k = j.
Proof.
  intros Hj (_ & Hmask & _). unfold owned. rewrite Hmask.
  rewrite set_bit32_testbit by by apply channels_lt_32.
  rewrite orb_true_iff, bool_decide_eq_true.
  split; (intros [Ho | He]; [by left | by right]).
Qed.

Lemma free_effects_owned j v m m' k :
  (j < N)%nat -> (k < 32)%nat ->
  free_effects cfg j v m m' ->
  owned m' k <-> owned m k /\ k <> j.
Proof.
  intros Hj Hk (_ & Hmask & _). unfold owned. rewrite Hmask.
  rewrite clear_bit32_testbit by by apply channels_lt_32.
  rewrite !andb_true_iff, bool_decide_eq_true, negb_true_iff,
    bool_decide_eq_false.
  split; [intros (Ho & _ & Hne) | intros [Ho Hne]]; repeat split; auto.
Qed.

Lemma free_effects_not_owned j v m m' :
  (j < N)%nat -> free_effects cfg j v m m' -> ~ owned m' j.
Proof.
  intros Hj He Ho.
  eapply free_effects_owned in Ho as [_ Hne]; [done | done | | done].
  by apply channels_lt_32.
Qed.

Lemma alloc_callback_inv j v prio f p m m' :
  wf cfg m -> (j < N)%nat ->
  alloc_effects cfg j v (bit32 j) prio f p m m' ->
  callback_inv m -> callback_inv m'.
Proof.
  intros Hwf Hj He Hinv i s Hs Hf.
  eapply alloc_effects_owned; [done .. |].
  destruct (decide (i = j)) as [-> | Hne]; [by right | left].
  destruct He as (_ & _ & Hch & _). rewrite Hch in Hs.
  rewrite list_lookup_insert_ne in Hs by done. by eapply Hinv.
Qed.

Lemma free_callback_inv j v m m' :
  wf cfg m -> (j < N)%nat ->
  free_effects cfg j v m m' ->
  callback_inv m -> callback_inv m'.
Proof.
  intros [Hc _] Hj He Hinv i s Hs Hf.
  pose proof He as (_ & _ & Hch & _). rewrite Hch in Hs.
  destruct (decide (i = j)) as [-> | Hne].
  - rewrite list_lookup_insert_eq in Hs by lia. injection Hs as <-. done.
  - rewrite list_lookup_insert_ne in Hs by done.
    eapply free_effects_owned; [done | | done |].
    + apply lookup_lt_Some in Hs. apply channels_lt_32. lia.
    + split; [by eapply Hinv | done].
Qed.

Lemma reachable_callback_inv m : reachable cfg m -> callback_inv m.
Proof.
  induction 1 as [boot m [Hwf _] Hrun | m m' _ IH Hrun | m m' _ IH Hrun
                 | m cmask prio f p r m' Hreach IH Hrun | m d m' Hreach IH Hrun
                 | m d m' Hreach IH Hrun].
  - destruct (dmaInit_ok cfg boot Hwf) as (m1 & Hrun1 & _ & _ & _ & Hfunc & _).
    rewrite Hrun1 in Hrun. injection Hrun as <-.
    intros i s Hs Hf. by apply Hfunc in Hs.
  - injection Hrun as <-. exact IH.
  - injection Hrun as <-. exact IH.
  - apply reachable_wf in Hreach.
    apply gpdmaChannelAllocI_inv in Hrun
      as [[_ ->] | (j & v & _ & Hj & _ & He)]; [done | | done].
    by eapply alloc_callback_inv.
  - apply reachable_wf in Hreach.
    apply gpdmaChannelFreeI_inv in Hrun as (i & v & _ & Hi & He); [| done].
    by eapply free_callback_inv.
  - apply reachable_wf in Hreach.
    apply gpdmaServeInterrupt_inv in Hrun as (_ & Hmask & Hch & _); [| done].
    intros i s Hs Hf. unfold owned. rewrite Hmask.
    rewrite Hch in Hs. by eapply IH.
Qed.

(** *** The mask stays within the table, and no claim returns [NULL] *)

Lemma reachable_mask_in_range m : reachable cfg m -> mask_in_range cfg m.
Proof.
  induction 1 as [boot m [Hwf _] Hrun | m m' _ IH Hrun | m m' _ IH Hrun
                 | m cmask prio f p r m' Hreach IH Hrun | m d m' Hreach IH Hrun
                 | m d m' Hreach IH Hrun].
  - destruct (dmaInit_ok cfg boot Hwf) as (m1 & Hrun1 & _ & Hmask & _).
    rewrite Hrun1 in Hrun. injection Hrun as <-.
    intros k Ho. unfold owned in Ho. by rewrite Hmask, Z.bits_0 in Ho.
  - injection Hrun as <-. exact IH.
  - injection Hrun as <-. exact IH.
  - apply reachable_wf in Hreach.
    apply gpdmaChannelAllocI_inv in Hrun
      as [[_ ->] | (j & v & _ & Hj & _ & He)]; [done | | done].
    intros k Ho.
    apply (alloc_effects_owned j v prio f p m m' k Hj He) in Ho
      as [Ho | ->]; [by apply IH | done].
  - apply reachable_wf in Hreach.
    apply gpdmaChannelFreeI_inv in Hrun
      as (i & v & _ & Hi & _ & Hmask & _); [| done].
    intros k Ho. apply IH. unfold owned in *.
    rewrite Hmask, Z.land_spec in Ho. by apply andb_true_iff in Ho as [Ho _].
  - apply reachable_wf in Hreach.
    apply gpdmaServeInterrupt_inv in Hrun as (_ & Hmask & _); [| done].
    intros k Ho. apply IH. unfold owned in *. by rewrite <- Hmask.
Qed.

(** The scan always stops, at index [STM32_GPDMA_CHANNELS] at the latest,
    where the loop test passes because bit [STM32_GPDMA_CHANNELS] of the mask
    is never set: no claim returns [NULL] from a reachable state. *)
Lemma alloc_never_returns_NULL m cmask prio f p m' :
  reachable cfg m ->
  gpdmaChannelAllocI cfg cmask prio f p m <> Ok None m'.
Proof.
  intros Hreach Hrun.
  pose proof (reachable_wf m Hreach) as Hwf.
  pose proof (reachable_mask_in_range m Hreach) as Hrange.
  rewrite gpdmaChannelAllocI_scan in Hrun.
  destruct (CH_DBG_SYSTEM_STATE_CHECK cfg && negb (syslock m)); [done |].
  destruct (scan _ _ _) as [j |] eqn:Hscan.
  - destruct (decide (j < N)%nat) as [Hj | Hj].
    + destruct (alloc_found_ok cfg j (bit32 j) prio f p m Hwf Hj)
        as (m1 & v & Hrun1 & _).
      rewrite Hrun1 in Hrun. discriminate.
    + rewrite alloc_found_oob in Hrun by lia. discriminate.
  - apply (scan_None _ _ _ N) in Hscan; [| lia]. apply Hscan.
    apply Z.eqb_eq. rewrite land_bit32_eq_0.
    + rewrite Z.land_spec.
      destruct (Z.testbit (allocated_mask m) (Z.of_nat N)) eqn:Hb; [| done].
      apply Hrange in Hb. lia.
    + destruct Hcfg. unfold STM32_GPDMA_CHANNELS. lia.
Qed.

(** *** Which channel a claim returns *)

(** The claim returns the first channel that is not both owned and in the
    candidate set: every channel below it is owned and in the candidate
    set. *)
Lemma alloc_selection cmask prio f p m j m' :
  wf cfg m ->
  gpdmaChannelAllocI cfg cmask prio f p m = Ok (Some j) m' ->
  ~ (owned m j /\ in_cmask cmask j) /\
  forall k, (k < j)%nat -> owned m k /\ in_cmask cmask k.
Proof.
  intros Hwf Hrun.
  pose proof (gpdmaChannelAllocI_selected cfg _ _ _ _ _ _ _ Hwf Hrun) as Hsel.
  apply scan_Some in Hsel as (Hj & Hz & Hlow).
  assert (forall k, (k <= N)%nat -> (k < 32)%nat) as H32
    by (intros k Hk; destruct Hcfg; unfold STM32_GPDMA_CHANNELS in *; lia).
  split.
  - intros [Ho Hc]. apply Z.eqb_eq in Hz.
    rewrite land_bit32_eq_0, Z.land_spec in Hz by (apply H32; lia).
    unfold owned, in_cmask in *. by rewrite Ho, Hc in Hz.
  - intros k Hk. specialize (Hlow k ltac:(lia)). apply Z.eqb_neq in Hlow.
    rewrite land_bit32_eq_0, Z.land_spec in Hlow by (apply H32; lia).
    apply negb_false_iff, andb_true_iff in Hlow. done.
Qed.

(** *** Claim, then release *)

(** When the channel that the claim returns was free, releasing it restores
    the mask. *)
Lemma claim_release_restores_free_channel cmask prio f p m j m1 :
  reachable cfg m ->
  gpdmaChannelAllocI cfg cmask prio f p m = Ok (Some j) m1 ->
  ~ owned m j ->
  exists m2, gpdmaChannelFreeI cfg (Some j) m1 = Ok tt m2 /\
             allocated_mask m2 = allocated_mask m.
Proof.
  intros Hreach Hrun Hfree.
  pose proof (reachable_wf m Hreach) as Hwf.
  pose proof (reachable_mask_in_range m Hreach) as Hrange.
  apply gpdmaChannelAllocI_inv in Hrun
    as [[? _] | (j' & v & [= <-] & Hj & _ & He)]; [done | | done].
  pose proof (channels_lt_32 j Hj) as Hj32.
  pose proof (alloc_effects_wf cfg _ _ _ _ _ _ _ _ Hwf He) as Hwf1.
  pose proof He as (_ & Hmask1 & _).
  destruct (gpdmaChannelFreeI_ok cfg j m1 Hwf1 Hj)
    as (m2 & v2 & Hrun2 & _ & Hmask2 & _).
  { intros _. apply Z.eqb_neq. rewrite land_bit32_eq_0 by done.
    rewrite Hmask1, set_bit32_testbit, bool_decide_eq_true_2 by done.
    by rewrite orb_true_r. }
  exists m2. split; [done |].
  rewrite Hmask2, Hmask1. apply Z.bits_inj'. intros n Hn.
  rewrite <- (Z2Nat.id n Hn).
  rewrite clear_bit32_testbit, set_bit32_testbit by done.
  destruct (Z.testbit (allocated_mask m) (Z.of_nat (Z.to_nat n))) eqn:Hb;
    simpl.
  - apply Hrange in Hb as Hlt. pose proof (channels_lt_32 _ Hlt).
    rewrite bool_decide_eq_true_2 by done.
    rewrite bool_decide_eq_false_2; [done |].
    intros ->. by apply Hfree.
  - by destruct (bool_decide (Z.to_nat n < 32)%nat), (bool_decide _).
Qed.

(** *** Clock gates and ownership bits *)

Hypothesis Hmasks : masks_ok cfg.

Lemma mask1_bit j :
  (j < N)%nat ->
  (Z.land (STM32_GPDMA1_MASK_ANY cfg) (bit32 j) =? 0)
  = negb (bool_decide (j < N1)%nat).
Proof.
  intros Hj. rewrite land_bit32_eq_0 by by apply channels_lt_32.
  by destruct (Hmasks j) as [-> _].
Qed.

Lemma mask2_bit j :
  (j < N)%nat ->
  (Z.land (STM32_GPDMA2_MASK_ANY cfg) (bit32 j) =? 0)
  = negb (bool_decide (N1 <= j < N)%nat).
Proof.
  intros Hj. rewrite land_bit32_eq_0 by by apply channels_lt_32.
  by destruct (Hmasks j) as [_ ->].
Qed.

Lemma land_mask1_eq_0 m :
  Z.land (allocated_mask m) (STM32_GPDMA1_MASK_ANY cfg) = 0 ->
  ~ domain1_owned cfg m.
Proof.
  intros H0 (i & Hi & Ho).
  pose proof (proj1 (land_eq_0_iff _ _) H0 i) as H.
  destruct (Hmasks i) as [H1 _]. unfold owned in Ho.
  rewrite Ho, H1, bool_decide_eq_true_2 in H by done. discriminate.
Qed.

Lemma land_mask2_eq_0 m :
  Z.land (allocated_mask m) (STM32_GPDMA2_MASK_ANY cfg) = 0 ->
  ~ domain2_owned cfg m.
Proof.
  intros H0 (i & Hi & Ho).
  pose proof (proj1 (land_eq_0_iff _ _) H0 i) as H.
  destruct (Hmasks i) as [_ H2]. unfold owned in Ho.
  rewrite Ho, H2, bool_decide_eq_true_2 in H by done. discriminate.
Qed.

Lemma land_mask1_neq_0 m :
  0 <= allocated_mask m ->
  Z.land (allocated_mask m) (STM32_GPDMA1_MASK_ANY cfg) <> 0 ->
  domain1_owned cfg m.
Proof.
  intros Hpos Hne. destruct (land_neq_0_ex _ _ Hpos Hne) as (k & Hk1 & Hk2).
  exists k. split; [| done].
  destruct (Hmasks k) as [H1 _]. rewrite H1 in Hk2.
  by apply bool_decide_eq_true in Hk2.
Qed.

Lemma land_mask2_neq_0 m :
  0 <= allocated_mask m ->
  Z.land (allocated_mask m) (STM32_GPDMA2_MASK_ANY cfg) <> 0 ->
  domain2_owned cfg m.
Proof.
  intros Hpos Hne. destruct (land_neq_0_ex _ _ Hpos Hne) as (k & Hk1 & Hk2).
  exists k. split; [| done].
  destruct (Hmasks k) as [_ H2]. rewrite H2 in Hk2.
  by apply bool_decide_eq_true in Hk2.
Qed.

(** A claim of [j] changes nothing for a group of channels without [j]. *)
Lemma alloc_effects_group (P : nat -> Prop) j v prio f p m m' :
  (j < N)%nat ->
  alloc_effects cfg j v (bit32 j) prio f p m m' ->
  ~ P j ->
  (exists i, P i /\ owned m' i) <-> (exists i, P i /\ owned m i).
Proof.
  intros Hj He HP. split; intros (i & Hi & Ho); exists i; (split; [done |]).
  - apply (alloc_effects_owned j v prio f p m m' i Hj He) in Ho
      as [Ho | ->]; done.
  - apply (alloc_effects_owned j v prio f p m m' i Hj He). by left.
Qed.

Lemma alloc_clock_inv j v prio f p m m' :
  (j < N)%nat ->
  alloc_effects cfg j v (bit32 j) prio f p m m' ->
  clock_inv cfg m -> clock_inv cfg m'.
Proof.
  intros Hj He [Hinv1 Hinv2].
  assert (owned m' j) as Hoj
    by (apply (alloc_effects_owned j v prio f p m m' j Hj He); by right).
  pose proof He as (_ & _ & _ & Hr1 & Hr2 & _).
  rewrite mask1_bit in Hr1 by done. rewrite mask2_bit in Hr2 by done.
  split.
  - rewrite Hr1. unfold domain1_owned.
    destruct (decide (j < N1)%nat) as [Hd | Hd];
      [rewrite bool_decide_eq_true_2 by done
      | rewrite bool_decide_eq_false_2 by done]; simpl.
    + split; [intros _; by exists j | done].
    + rewrite Hinv1. symmetry.
      by apply (alloc_effects_group (fun i => (i < N1)%nat) j v prio f p).
  - rewrite Hr2. unfold domain2_owned.
    destruct (0 <? STM32_GPDMA2_NUM_CHANNELS cfg)%nat eqn:E2;
      [destruct (decide (N1 <= j < N)%nat) as [Hd | Hd];
       [rewrite bool_decide_eq_true_2 by done
       | rewrite bool_decide_eq_false_2 by done]; simpl |].
    + split; [intros _; by exists j | done].
    + rewrite Hinv2. symmetry.
      by apply (alloc_effects_group (fun i => (N1 <= i < N)%nat) j v prio f p).
    + rewrite Hinv2. symmetry.
      apply (alloc_effects_group (fun i => (N1 <= i < N)%nat) j v prio f p);
        [done .. |].
      apply Nat.ltb_ge in E2. unfold STM32_GPDMA_CHANNELS in *. lia.
Qed.

Lemma free_effects_mask_nonneg j v m m' :
  free_effects cfg j v m m' -> 0 <= allocated_mask m'.
Proof.
  intros (_ & -> & _). apply Z.land_nonneg. right. apply not32_nonneg.
Qed.

Lemma free_clock_inv j v m m' :
  (j < N)%nat ->
  free_effects cfg j v m m' ->
  clock_inv cfg m -> clock_inv cfg m'.
Proof.
  intros Hj He [Hinv1 Hinv2].
  pose proof (free_effects_mask_nonneg _ _ _ _ He) as Hpos.
  assert (forall i, (i < N)%nat -> owned m' i -> owned m i) as Hsub.
  { intros i Hi Ho.
    by apply (free_effects_owned j v m m' i Hj (channels_lt_32 i Hi) He)
      in Ho as [Ho _]. }
  pose proof He as (_ & _ & _ & Hr1 & Hr2 & _).
  split.
  - rewrite Hr1.
    destruct (Z.eqb_spec
                (Z.land (allocated_mask m') (STM32_GPDMA1_MASK_ANY cfg)) 0)
      as [E | E].
    + apply land_mask1_eq_0 in E. split; [done | by intros Hd].
    + apply land_mask1_neq_0 in E; [| done].
      split; [done | intros _]. apply Hinv1.
      destruct E as (i & Hi & Ho). exists i. split; [done |].
      apply Hsub; [| done]. unfold STM32_GPDMA_CHANNELS. lia.
  - rewrite Hr2.
    destruct (0 <? STM32_GPDMA2_NUM_CHANNELS cfg)%nat eqn:E2.
    + destruct (Z.eqb_spec
                  (Z.land (allocated_mask m') (STM32_GPDMA2_MASK_ANY cfg)) 0)
        as [E | E].
      * apply land_mask2_eq_0 in E. split; [done | by intros Hd].
      * apply land_mask2_neq_0 in E; [| done].
        split; [done | intros _]. apply Hinv2.
        destruct E as (i & Hi & Ho). exists i. split; [done |].
        apply Hsub; [lia | done].
    + rewrite Hinv2. apply Nat.ltb_ge in E2.
      split; intros (i & Hi & _); unfold STM32_GPDMA_CHANNELS in *; lia.
Qed.

Lemma reachable_clock_inv m : reachable cfg m -> clock_inv cfg m.
Proof.
  induction 1 as [boot m (Hwf & Hoff1 & Hoff2) Hrun
                 | m m' _ IH Hrun | m m' _ IH Hrun
                 | m cmask prio f p r m' Hreach IH Hrun | m d m' Hreach IH Hrun
                 | m d m' Hreach IH Hrun].
  - destruct (dmaInit_ok cfg boot Hwf)
      as (m1 & Hrun1 & _ & Hmask & (H1 & H2 & _) & _).
    rewrite Hrun1 in Hrun. injection Hrun as <-.
    assert (forall i, ~ owned m1 i) as Hfree.
    { intros i. unfold owned. rewrite Hmask, Z.bits_0. done. }
    split; [rewrite H1, Hoff1 | rewrite H2, Hoff2];
      (split; [done | intros (i & _ & Ho); by apply Hfree in Ho]).
  - injection Hrun as <-. exact IH.
  - injection Hrun as <-. exact IH.
  - apply reachable_wf in Hreach.
    apply gpdmaChannelAllocI_inv in Hrun
      as [[_ ->] | (j & v & _ & Hj & _ & He)]; [done | | done].
    by eapply alloc_clock_inv.
  - apply reachable_wf in Hreach.
    apply gpdmaChannelFreeI_inv in Hrun as (i & v & _ & Hi & He); [| done].
    by eapply free_clock_inv.
  - apply reachable_wf in Hreach.
    apply gpdmaServeInterrupt_inv in Hrun
      as (_ & Hmask & _ & H1 & H2); [| done].
    destruct IH as [IH1 IH2]. unfold clock_inv, domain1_owned, domain2_owned,
      owned in *. rewrite H1, H2, Hmask. done.
Qed.

End Invariants.

(** ** The driver's properties *)

(** C8: on a valid channel, [gpdmaServeInterrupt] completes, writes the
    status it read to the clear register, and invokes the registered callback
    with the slot's parameter and that status exactly when the status shares
    a bit with the control register and a callback is registered; otherwise
    nothing is dispatched. *)
Theorem gpdmaServeInterrupt_dispatch (cfg : hal_config) (i : nat)
    (m : machine) (r : GPDMA_Channel_TypeDef) (s : isr_slot) :
  wf cfg m ->
  (i < STM32_GPDMA_CHANNELS cfg)%nat ->
  regs m !! i = Some r ->
  channels m !! i = Some s ->
  exists m' r',
    gpdmaServeInterrupt cfg (Some i) m = Ok tt m' /\
    regs m' !! i = Some r' /\ CFCR r' = CSR r /\
    (Z.land (CSR r) (CCR r) <> 0 /\ func s <> NULL ->
     isr_log m' = dispatch s (CSR r) :: isr_log m) /\
    (~ (Z.land (CSR r) (CCR r) <> 0 /\ func s <> NULL) ->
     isr_log m' = isr_log m).
Proof.
  intros Hwf Hi Hr Hs.
  destruct (gpdmaServeInterrupt_ok cfg i m r s Hwf Hi Hr Hs)
    as (m' & Hrun & Hregs & Hlog & _).
  exists m'. eexists. split; [done |]. split; [| split; [| split]].
  - rewrite Hregs. apply list_lookup_insert_eq.
    destruct Hwf as [_ Hlen]. lia.
  - reflexivity.
  - intros [Hst Hf]. rewrite Hlog.
    apply Z.eqb_neq in Hst. apply Z.eqb_neq in Hf. by rewrite Hst, Hf.
  - intros Hno. rewrite Hlog.
    destruct (Z.eqb_spec (Z.land (CSR r) (CCR r)) 0) as [| Hst]; [done |].
    destruct (Z.eqb_spec (func s) NULL) as [| Hf]; [done |].
    destruct Hno. done.
Qed.

(** ** The concrete scenario, run on the driver *)

Lemma scenario_masks_ok : masks_ok scenario_cfg.
Proof.
  intros j. destruct (decide (j < 16)%nat) as [Hj | Hj].
  - do 16 (destruct j as [| j]; [by split |]). lia.
  - split.
    + rewrite bool_decide_eq_false_2 by (simpl; lia).
      apply Z.bits_above_log2; simpl; lia.
    + rewrite bool_decide_eq_false_2
        by (unfold STM32_GPDMA_CHANNELS; simpl; lia).
      apply Z.bits_above_log2; simpl; lia.
Qed.

Lemma claimed_machine_run :
  gpdmaChannelAllocI scenario_cfg 0xFFFF 5 isr_a arg_a (reset_machine 16)
  = Ok (Some 0%nat) claimed_machine.
Proof. vm_compute. reflexivity. Qed.

(** *** The dispatch at the machine whose transfer is done *)

Lemma gpdmaServeInterrupt_dispatch_witness :
  exists m',
    gpdmaServeInterrupt scenario_cfg (Some 0%nat) transfer_done_machine
    = Ok tt m' /\
    isr_log m'
    = [ {| call_func := isr_a; call_param := arg_a; call_flags := 0x0100 |} ].
Proof.
  destruct (gpdmaServeInterrupt_dispatch scenario_cfg 0 transfer_done_machine
              {| CCR := 0x0101; CSR := 0x0100; CFCR := 0xFFFFFFFF |}
              {| func := isr_a; param := arg_a |})
    as (m' & r' & Hrun & _ & _ & Hcall & _).
  - split; reflexivity.
  - unfold STM32_GPDMA_CHANNELS. simpl. lia.
  - reflexivity.
  - reflexivity.
  - exists m'. split; [exact Hrun |].
    apply Hcall. split; vm_compute; discriminate.
Defined.

(** *** Where the driver departs from its documented contract *)

(** C1: from the state after [dmaInit], a claim with the candidate set
    [0x0004] (channel 2 only, which is free) returns channel 0, whose bit is
    not in the candidate set.  The search tests
    [(allocated_mask & cmask & mask) == 0], which holds for every channel
    outside [cmask]. *)
Theorem alloc_leaves_candidate_set :
  exists m',
    gpdmaChannelAllocI scenario_cfg 0x0004 5 isr_a arg_a (reset_machine 16)
    = Ok (Some 0%nat) m' /\
    ~ in_cmask 0x0004 0 /\
    in_cmask 0x0004 2 /\ ~ owned (reset_machine 16) 2.
Proof.
  eexists. split; [vm_compute; reflexivity |].
  repeat split; vm_compute; congruence.
Qed.

(** C2: from the state after [dmaInit], with channels 4 and 5 both free and
    both in the candidate set [0x0030], the claim returns channel 0 and not
    channel 4, the lowest free channel of the candidate set. *)
Theorem alloc_not_lowest_free_candidate :
  exists m',
    gpdmaChannelAllocI scenario_cfg 0x0030 5 isr_a arg_a (reset_machine 16)
    = Ok (Some 0%nat) m' /\
    (in_cmask 0x0030 4 /\ ~ owned (reset_machine 16) 4) /\
    (in_cmask 0x0030 5 /\ ~ owned (reset_machine 16) 5) /\
    ~ in_cmask 0x0030 0.
Proof.
  eexists. split; [vm_compute; reflexivity |].
  repeat split; vm_compute; congruence.
Qed.

(** C3: after sixteen claims all sixteen channels are owned; the next claim
    over all channels scans up to index 16, equal to
    [STM32_GPDMA_CHANNELS], passes the loop test there and accesses
    [gpdma.channels[16]], outside the array. *)
Theorem alloc_scans_past_last_channel :
  exists m16,
    claims scenario_cfg 16 0xFFFF 5 isr_a arg_a (reset_machine 16)
    = Ok tt m16 /\
    allocated_mask m16 = 0xFFFF /\
    scan (S (STM32_GPDMA_CHANNELS scenario_cfg)) 0
         (Z.land (allocated_mask m16) 0xFFFF)
    = Some (STM32_GPDMA_CHANNELS scenario_cfg) /\
    gpdmaChannelAllocI scenario_cfg 0xFFFF 5 isr_b arg_b m16
    = Err (OutOfBounds 16).
Proof.
  eexists. split; [vm_compute; reflexivity |].
  repeat split; vm_compute; reflexivity.
Qed.

(** C4: after eight claims channels 0-7 are owned, so every channel of the
    candidate set [0x00FF] is owned; a claim with that set does not return
    [NULL]: it returns channel 8, sets its ownership bit and switches the
    clock of GPDMA2 on. *)
Theorem alloc_exhausted_set_still_claims :
  exists m8 m',
    claims scenario_cfg 8 0xFFFF 5 isr_a arg_a (reset_machine 16)
    = Ok tt m8 /\
    allocated_mask m8 = 0x00FF /\
    gpdmaChannelAllocI scenario_cfg 0x00FF 5 isr_b arg_b m8
    = Ok (Some 8%nat) m' /\
    allocated_mask m' = 0x01FF /\
    rcc_gpdma2 m8 = false /\ rcc_gpdma2 m' = true /\
    channels m' !! 8%nat = Some {| func := isr_b; param := arg_b |}.
Proof.
  do 2 eexists. split; [vm_compute; reflexivity |].
  split; [vm_compute; reflexivity |].
  split; [vm_compute; reflexivity |].
  repeat split; vm_compute; reflexivity.
Qed.

(** C5: in the scenario of the specification, the first claim with the
    candidate set [0xFF00] returns channel 0, not channel 8, switches the
    clock of GPDMA1 on and leaves the clock of GPDMA2 off; the second claim
    with the same set returns channel 0 again, not channel 9. *)
Theorem scenario_claims_return_channel_0 :
  exists m0 m1 m2,
    dmaInit scenario_cfg (reset_machine 16) = Ok tt m0 /\
    gpdmaChannelAllocI scenario_cfg 0xFF00 5 isr_a arg_a m0
    = Ok (Some 0%nat) m1 /\
    rcc_gpdma1 m0 = false /\ rcc_gpdma1 m1 = true /\ rcc_gpdma2 m1 = false /\
    gpdmaChannelAllocI scenario_cfg 0xFF00 5 isr_b arg_b m1
    = Ok (Some 0%nat) m2.
Proof.
  do 3 eexists. split; [vm_compute; reflexivity |].
  split; [vm_compute; reflexivity |].
  repeat split; vm_compute; reflexivity.
Qed.

(** C6: with channel 0 owned (mask [0x0001]), a claim with the candidate set
    [0xFF00] returns channel 0 again, and the release of the returned channel
    leaves the mask at [0x0000], not at its value before the claim. *)
Theorem claim_release_changes_mask :
  exists m2 m3,
    allocated_mask claimed_machine = 0x0001 /\
    gpdmaChannelAllocI scenario_cfg 0xFF00 6 isr_b arg_b claimed_machine
    = Ok (Some 0%nat) m2 /\
    gpdmaChannelFreeI scenario_cfg (Some 0%nat) m2 = Ok tt m3 /\
    allocated_mask m3 = 0x0000.
Proof.
  do 2 eexists. split; [reflexivity |].
  split; [vm_compute; reflexivity |].
  split; vm_compute; reflexivity.
Qed.

(** C10: [gpdmaChannelFree] runs, between lock and unlock, the function
    linked under the name [gpdmaStreamFreeI], not [gpdmaChannelFreeI]; with a
    [gpdmaStreamFreeI] that does nothing, channel 0 stays owned where the
    locked [gpdmaChannelFreeI] releases it. *)
Theorem gpdmaChannelFree_runs_gpdmaStreamFreeI :
  (forall gpdmaStreamFreeI dmachp m,
     gpdmaChannelFree gpdmaStreamFreeI dmachp m
     = (osalSysLock ;; gpdmaStreamFreeI dmachp ;; osalSysUnlock) m) /\
  exists m1 m2,
    gpdmaChannelFree (fun _ => ret tt) (Some 0%nat) claimed_machine
    = Ok tt m1 /\
    (osalSysLock ;; gpdmaChannelFreeI scenario_cfg (Some 0%nat) ;;
     osalSysUnlock) claimed_machine = Ok tt m2 /\
    allocated_mask m1 = 0x0001 /\ allocated_mask m2 = 0x0000.
Proof.
  split; [reflexivity |].
  do 2 eexists. split; [vm_compute; reflexivity |].
  split; [vm_compute; reflexivity |].
  split; vm_compute; reflexivity.
Qed.

(** ** Further properties of the driver *)

Lemma machine_eq (m1 m2 : machine) :
  allocated_mask m1 = allocated_mask m2 ->
  channels m1 = channels m2 ->
  regs m1 = regs m2 ->
  rcc_gpdma1 m1 = rcc_gpdma1 m2 ->
  rcc_gpdma2 m1 = rcc_gpdma2 m2 ->
  nvic m1 = nvic m2 ->
  syslock m1 = syslock m2 ->
  isr_log m1 = isr_log m2 ->
  m1 = m2.
Proof. destruct m1, m2. simpl. by intros -> -> -> -> -> -> -> ->. Qed.

Section Coverage.

Variable cfg : hal_config.

Local Abbreviation N := (STM32_GPDMA_CHANNELS cfg).

(** *** [dmaInit] *)

(** The loop of [dmaInit] clears the callback and the control register of
    the entries it visits, and nothing else. *)
Lemma dmaInit_loop_exact count i m :
  wf cfg m -> (i + count <= N)%nat ->
  exists m', dmaInit_loop cfg count i m = Ok tt m' /\
    allocated_mask m' = allocated_mask m /\
    same_collaborators m m' /\
    (forall j, channels m' !! j =
       if bool_decide (i <= j < i + count)%nat
       then clear_func <$> channels m !! j else channels m !! j) /\
    (forall j, regs m' !! j =
       if bool_decide (i <= j < i + count)%nat
       then clear_CCR <$> regs m !! j else regs m !! j).
Proof.
  revert i m. induction count as [| count IH]; intros i m Hwf Hle.
  - exists m. simpl. unfold ret, same_collaborators.
    do 3 (split; [done |]).
    split; intros j; rewrite bool_decide_eq_false_2 by lia; done.
  - destruct Hwf as [Hc Hr].
    destruct (lookup_lt_is_Some_2 (channels m) i) as [s Hs]; [lia |].
    destruct (lookup_lt_is_Some_2 (regs m) i) as [r Hr']; [lia |].
    destruct (table_lookup cfg i) as [v Hd]; [lia |].
    assert (i < N)%nat as Hi by lia.
    simpl. unfold_prims. run.
    match goal with
    | |- context [ dmaInit_loop cfg count (S i) ?m1 ] =>
        destruct (IH (S i) m1) as (m' & Hrun & Hmask & Hsame & Hch & Hrg)
    end.
    { split; simpl; rewrite length_insert; done. }
    { lia. }
    rewrite Hrun. exists m'. simpl in *.
    do 3 (split; [done |]). split.
    + intros j. rewrite Hch. destruct (decide (j = i)) as [-> | Hne].
      * rewrite bool_decide_eq_false_2, bool_decide_eq_true_2 by lia.
        rewrite list_lookup_insert_eq, Hs by lia. done.
      * rewrite list_lookup_insert_ne by done.
        repeat case_bool_decide; try done; lia.
    + intros j. rewrite Hrg. destruct (decide (j = i)) as [-> | Hne].
      * rewrite bool_decide_eq_false_2, bool_decide_eq_true_2 by lia.
        rewrite list_lookup_insert_eq, Hr' by lia. done.
      * rewrite list_lookup_insert_ne by done.
        repeat case_bool_decide; try done; lia.
Qed.

Lemma dmaInit_exact m :
  wf cfg m ->
  exists m', dmaInit cfg m = Ok tt m' /\
    allocated_mask m' = 0 /\
    channels m' = clear_func <$> channels m /\
    regs m' = clear_CCR <$> regs m /\
    same_collaborators m m'.
Proof.
  intros Hwf. unfold dmaInit, bind, modify.
  destruct (dmaInit_loop_exact N 0 (set_allocated_mask 0 m))
    as (m' & Hrun & Hmask & Hsame & Hch & Hrg); [done | lia |].
  exists m'. rewrite Hrun. do 2 (split; [done |]).
  destruct Hwf as [Hc Hr]. split; [| split; [| done]].
  - apply list_eq. intros j. rewrite Hch, list_lookup_fmap. simpl.
    case_bool_decide; [done |].
    rewrite lookup_ge_None_2 by lia. done.
  - apply list_eq. intros j. rewrite Hrg, list_lookup_fmap. simpl.
    case_bool_decide; [done |].
    rewrite lookup_ge_None_2 by lia. done.
Qed.

(** X1: on a machine whose arrays have their declared sizes, [dmaInit]
    completes; afterwards no channel is owned, every slot has a [NULL]
    callback and the parameter it had, every channel has a zero control
    register and the status it had, and the clock gates, the vectors, the
    lock and the log are as before. *)
Theorem dmaInit_frees_every_channel (m : machine) :
  wf cfg m ->
  exists m', dmaInit cfg m = Ok tt m' /\
    (forall k, ~ owned m' k) /\
    (forall k s, channels m !! k = Some s ->
       channels m' !! k = Some {| func := NULL; param := param s |}) /\
    (forall k r, regs m !! k = Some r ->
       regs m' !! k = Some {| CCR := 0; CSR := CSR r; CFCR := CFCR r |}) /\
    same_collaborators m m'.
Proof.
  intros Hwf.
  destruct (dmaInit_exact m Hwf) as (m' & Hrun & Hmask & Hch & Hrg & Hsame).
  exists m'. split; [done |]. split; [| split; [| split; [| done]]].
  - intros k. unfold owned. by rewrite Hmask, Z.bits_0.
  - intros k s Hs. by rewrite Hch, list_lookup_fmap, Hs.
  - intros k r Hr. by rewrite Hrg, list_lookup_fmap, Hr.
Qed.

(** X2: [dmaInit] is idempotent: run on the machine that it has produced, it
    completes and leaves that machine as it is. *)
Theorem dmaInit_idempotent (m m' : machine) :
  wf cfg m ->
  dmaInit cfg m = Ok tt m' ->
  dmaInit cfg m' = Ok tt m'.
Proof.
  intros Hwf Hrun.
  destruct (dmaInit_exact m Hwf) as (m1 & Hrun1 & Hmask & Hch & Hrg & _).
  rewrite Hrun1 in Hrun. injection Hrun as <-.
  assert (wf cfg m1) as Hwf1.
  { destruct Hwf as [Hc Hr]. split.
    - by rewrite Hch, length_fmap.
    - by rewrite Hrg, length_fmap. }
  destruct (dmaInit_exact m1 Hwf1)
    as (m2 & Hrun2 & Hmask2 & Hch2 & Hrg2 & H1 & H2 & H3 & H4 & H5).
  rewrite Hrun2. f_equal. apply machine_eq; try done.
  - by rewrite Hmask2, Hmask.
  - rewrite Hch2, Hch, <- list_fmap_compose. apply list_fmap_ext.
    by intros k [] _.
  - rewrite Hrg2, Hrg, <- list_fmap_compose. apply list_fmap_ext.
    by intros k [] _.
Qed.

(** *** [gpdmaChannelAllocI]: which outcome, which channel *)

Hypothesis Hcfg : cfg_channels_ok cfg.

Lemma index_lt_32 (k : nat) : (k <= N)%nat -> (k < 32)%nat.
Proof. destruct Hcfg. unfold STM32_GPDMA_CHANNELS. lia. Qed.

(** The loop test fails at [k] exactly when [k] is owned and in the candidate
    set. *)
Lemma loop_test_taken cmask m k :
  (k <= N)%nat ->
  Z.land (Z.land (allocated_mask m) cmask) (bit32 k) <> 0 <-> taken cmask m k.
Proof.
  intros Hk. rewrite <- Z.eqb_neq, land_bit32_eq_0 by by apply index_lt_32.
  rewrite negb_false_iff, Z.land_spec, andb_true_iff. done.
Qed.

Lemma loop_test_free cmask m k :
  (k <= N)%nat ->
  Z.land (Z.land (allocated_mask m) cmask) (bit32 k) = 0 <-> ~ taken cmask m k.
Proof.
  intros Hk. rewrite <- (loop_test_taken cmask m k Hk).
  destruct (Z.eq_dec (Z.land (Z.land (allocated_mask m) cmask) (bit32 k)) 0);
    split; auto; intros; tauto.
Qed.

(** The scan returns the first index at which the test passes. *)
Lemma scan_first count i available j :
  (i <= j < i + count)%nat ->
  Z.land available (bit32 j) = 0 ->
  (forall k, (i <= k < j)%nat -> Z.land available (bit32 k) <> 0) ->
  scan count i available = Some j.
Proof.
  revert i. induction count as [| count IH]; intros i Hj Hz Hlow; [lia |].
  simpl. destruct (decide (i = j)) as [-> | Hne].
  - by rewrite (proj2 (Z.eqb_eq _ _) Hz).
  - rewrite (proj2 (Z.eqb_neq _ _) (Hlow i ltac:(lia))).
    apply IH; [lia | done |]. intros k Hk. apply Hlow. lia.
Qed.

Lemma class_I_check_passes m :
  class_I_ok cfg m ->
  CH_DBG_SYSTEM_STATE_CHECK cfg && negb (syslock m) = false.
Proof.
  unfold class_I_ok. destruct (CH_DBG_SYSTEM_STATE_CHECK cfg); [| done].
  intros ->; done.
Qed.

(** X3: with the lock held, a claim returns channel [j] exactly when [j] is a
    table index that is not both owned and in the candidate set while every
    lower index is both: the channel returned is the first one that is free
    or outside the candidate set. *)
Theorem claim_returns_first_untaken_channel
    (cmask irqprio f p : Z) (m : machine) (j : nat) :
  wf cfg m ->
  class_I_ok cfg m ->
  (exists m', gpdmaChannelAllocI cfg cmask irqprio f p m = Ok (Some j) m')
  <->
  (j < N)%nat /\ ~ taken cmask m j /\
  (forall k, (k < j)%nat -> taken cmask m k).
Proof.
  intros Hwf Hlock. split.
  - intros [m' Hrun].
    pose proof (gpdmaChannelAllocI_selected cfg _ _ _ _ _ _ _ Hwf Hrun) as Hsel.
    apply gpdmaChannelAllocI_inv in Hrun
      as [[? _] | (j' & v & [= <-] & Hj & _)]; [done | | done].
    apply scan_Some in Hsel as (_ & Hz & Hlow).
    split; [done |]. split.
    + apply loop_test_free; [lia | done].
    + intros k Hk. apply loop_test_taken; [lia |]. apply Hlow. lia.
  - intros (Hj & Hfree & Hlow).
    rewrite gpdmaChannelAllocI_scan, class_I_check_passes by done.
    rewrite (scan_first (S N) 0 _ j).
    + destruct (alloc_found_ok cfg j (bit32 j) irqprio f p m Hwf Hj)
        as (m' & _ & Hrun & _).
      by exists m'.
    + lia.
    + apply loop_test_free; [lia | done].
    + intros k Hk. apply loop_test_taken; [lia |]. apply Hlow. lia.
Qed.

(** X4: from a reachable state with the lock held, a claim never returns
    [NULL]; it stops on the access to [gpdma.channels[STM32_GPDMA_CHANNELS]],
    past the end of the array, exactly when every channel is owned and in the
    candidate set. *)
Theorem claim_overruns_when_all_taken
    (cmask irqprio f p : Z) (m : machine) :
  reachable cfg m ->
  class_I_ok cfg m ->
  (forall m', gpdmaChannelAllocI cfg cmask irqprio f p m <> Ok None m') /\
  (gpdmaChannelAllocI cfg cmask irqprio f p m = Err (OutOfBounds N)
   <-> forall k, (k < N)%nat -> taken cmask m k).
Proof.
  intros Hreach Hlock.
  pose proof (reachable_wf cfg m Hreach) as Hwf.
  pose proof (reachable_mask_in_range cfg Hcfg m Hreach) as Hrange.
  assert (~ taken cmask m N) as HN.
  { intros [Ho _]. apply Hrange in Ho. lia. }
  split; [intros m'; by apply alloc_never_returns_NULL |].
  rewrite gpdmaChannelAllocI_scan, class_I_check_passes by done.
  split.
  - destruct (scan _ _ _) as [j |] eqn:Hscan; [| done].
    apply scan_Some in Hscan as (Hj & _ & Hlow).
    destruct (decide (j < N)%nat) as [Hlt | Hge].
    + destruct (alloc_found_ok cfg j (bit32 j) irqprio f p m Hwf Hlt)
        as (m' & _ & Hrun & _).
      by rewrite Hrun.
    + intros _ k Hk. apply loop_test_taken; [lia |]. apply Hlow. lia.
  - intros Hall. rewrite (scan_first (S N) 0 _ N).
    + by apply alloc_found_oob.
    + lia.
    + by apply loop_test_free.
    + intros k Hk. apply loop_test_taken; [lia |]. apply Hall. lia.
Qed.

(** X5: when the candidate set contains every channel of the table, the
    channel that a claim returns was free, every lower channel is owned, and
    the returned channel is owned afterwards: the lowest free channel is
    claimed. *)
Theorem claim_any_returns_lowest_free
    (cmask irqprio f p : Z) (m m' : machine) (j : nat) :
  wf cfg m ->
  (forall k, (k < N)%nat -> in_cmask cmask k) ->
  gpdmaChannelAllocI cfg cmask irqprio f p m = Ok (Some j) m' ->
  ~ owned m j /\ (forall k, (k < j)%nat -> owned m k) /\ owned m' j.
Proof.
  intros Hwf Hall Hrun.
  destruct (alloc_selection cfg Hcfg _ _ _ _ _ _ _ Hwf Hrun) as [Hsel Hlow].
  apply gpdmaChannelAllocI_inv in Hrun
    as [[? _] | (j' & v & [= <-] & Hj & _ & He)]; [done | | done].
  split; [| split].
  - intros Ho. apply Hsel. split; [done | by apply Hall].
  - intros k Hk. by apply Hlow.
  - apply (alloc_effects_owned cfg Hcfg j v irqprio f p m m' j Hj He).
    by right.
Qed.

(** *** [gpdmaChannelAllocI]: what a claim changes *)

(** X6: a claim that returns channel [j] leaves the slot, the registers and
    the ownership bit of every other channel, the lock and the log as they
    were, and leaves channel [j] with a zero control register. *)
Theorem claim_touches_one_channel
    (cmask irqprio f p : Z) (m m' : machine) (j : nat) :
  wf cfg m ->
  gpdmaChannelAllocI cfg cmask irqprio f p m = Ok (Some j) m' ->
  (forall k, k <> j ->
     channels m' !! k = channels m !! k /\
     regs m' !! k = regs m !! k /\
     (owned m' k <-> owned m k)) /\
  (exists r, regs m' !! j = Some r /\ CCR r = 0) /\
  syslock m' = syslock m /\ isr_log m' = isr_log m.
Proof.
  intros Hwf Hrun.
  apply gpdmaChannelAllocI_inv in Hrun
    as [[? _] | (j' & v & [= <-] & Hj & _ & He)]; [done | | done].
  pose proof He as (_ & _ & Hch & _ & _ & _ & Hlock & Hlog & r & Hregs & Hccr).
  split; [| split; [| done]].
  - intros k Hk. split; [| split].
    + rewrite Hch. by apply list_lookup_insert_ne.
    + rewrite Hregs. by apply list_lookup_insert_ne.
    + rewrite (alloc_effects_owned cfg Hcfg j v irqprio f p m m' k Hj He).
      split; [by intros [Ho | Hjk] | by left].
  - exists r. split; [| done]. rewrite Hregs.
    apply list_lookup_insert_eq. destruct Hwf as [_ Hr]. lia.
Qed.

(** X7: a claim with a [NULL] callback leaves the vectors as they were; a
    claim with a callback enables the vector of the returned channel at the
    requested priority and leaves every other vector as it was. *)
Theorem claim_enables_vector_for_callback
    (cmask irqprio f p : Z) (m m' : machine) (j : nat) :
  wf cfg m ->
  gpdmaChannelAllocI cfg cmask irqprio f p m = Ok (Some j) m' ->
  exists d,
    __stm32_gpdma_channels cfg !! j = Some d /\
    (f = NULL -> nvic m' = nvic m) /\
    (f <> NULL ->
     nvic m' !! vector d = Some irqprio /\
     forall w, w <> vector d -> nvic m' !! w = nvic m !! w).
Proof.
  intros Hwf Hrun.
  apply gpdmaChannelAllocI_inv in Hrun
    as [[? _] | (j' & v & [= <-] & Hj & _ & He)]; [done | | done].
  destruct He as (Hd & _ & _ & _ & _ & Hnvic & _).
  eexists. split; [exact Hd |]. simpl. rewrite Hnvic. split.
  - intros ->. done.
  - intros Hf. apply Z.eqb_neq in Hf. rewrite Hf. split.
    + apply lookup_insert_eq.
    + intros w Hw. by apply lookup_insert_ne.
Qed.

(** *** [gpdmaChannelAlloc] *)

Lemma gpdmaChannelAlloc_unfold cmask irqprio f p m :
  gpdmaChannelAlloc cfg cmask irqprio f p m =
  match gpdmaChannelAllocI cfg cmask irqprio f p (set_syslock true m) with
  | Ok r m1 => Ok r (set_syslock false m1)
  | Err e => Err e
  end.
Proof.
  unfold gpdmaChannelAlloc, osalSysLock, osalSysUnlock, bind, modify, ret.
  by destruct (gpdmaChannelAllocI _ _ _ _ _ _).
Qed.

(** X8: called outside a critical section, the locked claim never halts on
    the I-class check of [gpdmaChannelAllocI]; when it returns, the lock is
    released, the channel and the state are those of [gpdmaChannelAllocI]
    run with the lock held, and the state is again one that the driver
    reaches. *)
Theorem gpdmaChannelAlloc_claims_under_lock
    (cmask irqprio f p : Z) (m : machine) :
  reachable cfg m ->
  syslock m = false ->
  gpdmaChannelAlloc cfg cmask irqprio f p m <> Err DbgHalt /\
  forall r m',
    gpdmaChannelAlloc cfg cmask irqprio f p m = Ok r m' ->
    syslock m' = false /\
    reachable cfg m' /\
    exists m1,
      gpdmaChannelAllocI cfg cmask irqprio f p (set_syslock true m) = Ok r m1 /\
      m' = set_syslock false m1.
Proof.
  intros Hreach _.
  pose proof (reachable_wf cfg m Hreach) as Hwf.
  assert (wf cfg (set_syslock true m)) as Hwf1 by exact Hwf.
  rewrite gpdmaChannelAlloc_unfold. split.
  - rewrite gpdmaChannelAllocI_scan.
    rewrite class_I_check_passes by (intros _; reflexivity).
    destruct (scan _ _ _) as [j |]; [| discriminate].
    destruct (decide (j < N)%nat) as [Hj | Hj].
    + destruct (alloc_found_ok cfg j (bit32 j) irqprio f p _ Hwf1 Hj)
        as (m1 & _ & Hrun & _).
      by rewrite Hrun.
    + by rewrite alloc_found_oob by lia.
  - intros r m'.
    destruct (gpdmaChannelAllocI _ _ _ _ _ _) as [r1 m1 |] eqn:Hrun; [| done].
    intros [= <- <-]. split; [done |]. split; [| by exists m1].
    apply (reach_unlock cfg m1); [| done].
    apply (reach_claim cfg (set_syslock true m) cmask irqprio f p r1 m1);
      [| done].
    by apply (reach_lock cfg m).
Qed.

(** *** [gpdmaChannelFreeI] *)

Lemma gpdmaChannelFreeI_assert_fails j m :
  OSAL_DBG_ENABLE_ASSERTS cfg = true ->
  ~ owned m j -> (j < N)%nat ->
  gpdmaChannelFreeI cfg (Some j) m = Err DbgHalt.
Proof.
  intros Ha Hfree Hj. unfold gpdmaChannelFreeI. unfold_prims. simpl.
  rewrite andb_false_r, Ha. simpl.
  rewrite land_bit32_eq_0 by (apply index_lt_32; lia).
  unfold owned in Hfree. by destruct (Z.testbit _ _).
Qed.

(** X9: a release completes only on a descriptor of the table, never on
    [NULL] or on an index past the table, and, when assertions are enabled,
    only on an owned channel. *)
Theorem release_completes_only_on_owned_entry
    (dmachp : option nat) (m m' : machine) :
  wf cfg m ->
  gpdmaChannelFreeI cfg dmachp m = Ok tt m' ->
  exists j, dmachp = Some j /\ (j < N)%nat /\
            (OSAL_DBG_ENABLE_ASSERTS cfg = true -> owned m j).
Proof.
  intros Hwf Hrun.
  pose proof Hrun as Hrun'.
  apply gpdmaChannelFreeI_inv in Hrun' as (j & v & -> & Hj & _); [| done].
  exists j. do 2 (split; [done |]). intros Ha.
  unfold owned. destruct (Z.testbit _ _) eqn:Hb; [done |].
  rewrite gpdmaChannelFreeI_assert_fails in Hrun; [done .. | | done].
  unfold owned. by rewrite Hb.
Qed.

(** X10: when assertions are enabled, releasing again a channel that has just
    been released halts the system. *)
Theorem double_release_halts (j : nat) (m m1 : machine) :
  wf cfg m ->
  OSAL_DBG_ENABLE_ASSERTS cfg = true ->
  gpdmaChannelFreeI cfg (Some j) m = Ok tt m1 ->
  gpdmaChannelFreeI cfg (Some j) m1 = Err DbgHalt.
Proof.
  intros Hwf Ha Hrun.
  apply gpdmaChannelFreeI_inv in Hrun as (j' & v & [= <-] & Hj & He); [| done].
  apply gpdmaChannelFreeI_assert_fails; [done | | done].
  exact (free_effects_not_owned cfg Hcfg j v m m1 Hj He).
Qed.

(** Clearing a bit that is clear leaves a mask within the table as it is. *)
Lemma clear_free_bit m j :
  mask_in_range cfg m -> (j < N)%nat -> ~ owned m j ->
  Z.land (allocated_mask m) (not32 (bit32 j)) = allocated_mask m.
Proof.
  intros Hrange Hj Hfree. apply Z.bits_inj'. intros n Hn.
  rewrite <- (Z2Nat.id n Hn).
  rewrite clear_bit32_testbit by (apply index_lt_32; lia).
  destruct (Z.testbit (allocated_mask m) (Z.of_nat (Z.to_nat n))) eqn:Hb;
    [| done].
  apply Hrange in Hb as Hlt. simpl.
  rewrite bool_decide_eq_true_2 by (apply index_lt_32; lia).
  rewrite bool_decide_eq_false_2; [done |].
  intros ->. by apply Hfree.
Qed.

(** X11: when assertions are disabled, the release of a channel that is not
    owned completes: the mask stays as it was, yet the slot of the channel is
    emptied and its vector is disabled. *)
Theorem unchecked_release_of_free_channel (j : nat) (m : machine) :
  reachable cfg m ->
  OSAL_DBG_ENABLE_ASSERTS cfg = false ->
  (j < N)%nat ->
  ~ owned m j ->
  exists m' d,
    gpdmaChannelFreeI cfg (Some j) m = Ok tt m' /\
    __stm32_gpdma_channels cfg !! j = Some d /\
    allocated_mask m' = allocated_mask m /\
    channels m' !! j = Some {| func := NULL; param := NULL |} /\
    nvic m' !! vector d = None.
Proof.
  intros Hreach Ha Hj Hfree.
  pose proof (reachable_wf cfg m Hreach) as Hwf.
  pose proof (reachable_mask_in_range cfg Hcfg m Hreach) as Hrange.
  destruct (gpdmaChannelFreeI_ok cfg j m Hwf Hj)
    as (m' & v & Hrun & Hd & Hmask & Hch & _ & _ & Hnvic & _).
  { intros Ha'. congruence. }
  exists m'. eexists. split; [done |]. split; [exact Hd |]. split; [| split].
  - rewrite Hmask. by apply clear_free_bit.
  - rewrite Hch. apply list_lookup_insert_eq. destruct Hwf as [Hc _]. lia.
  - simpl. rewrite Hnvic. apply lookup_delete_eq.
Qed.

(** X12: a release of channel [j] that completes leaves every register,
    those of channel [j] included, the slot and the ownership bit of every
    other channel, every vector but that of channel [j], the lock and the log
    as they were; bit [j] is clear and the vector of channel [j] is
    disabled. *)
Theorem release_touches_one_channel (j : nat) (m m' : machine) :
  wf cfg m ->
  gpdmaChannelFreeI cfg (Some j) m = Ok tt m' ->
  regs m' = regs m /\
  (forall k, k <> j -> (k < N)%nat ->
     channels m' !! k = channels m !! k /\ (owned m' k <-> owned m k)) /\
  ~ owned m' j /\
  (exists d, __stm32_gpdma_channels cfg !! j = Some d /\
             nvic m' !! vector d = None /\
             forall w, w <> vector d -> nvic m' !! w = nvic m !! w) /\
  syslock m' = syslock m /\ isr_log m' = isr_log m.
Proof.
  intros Hwf Hrun.
  apply gpdmaChannelFreeI_inv in Hrun as (j' & v & [= <-] & Hj & He); [| done].
  pose proof He as (Hd & _ & Hch & _ & _ & Hnvic & Hlock & Hlog & Hregs).
  split; [done |]. split; [| split; [| split; [| done]]].
  - intros k Hk HkN. split.
    + rewrite Hch. by apply list_lookup_insert_ne.
    + rewrite (free_effects_owned cfg Hcfg j v m m' k Hj
                 (index_lt_32 k ltac:(lia)) He).
      split; [by intros [Ho _] | done].
  - exact (free_effects_not_owned cfg Hcfg j v m m' Hj He).
  - eexists. split; [exact Hd |]. simpl. rewrite Hnvic. split.
    + apply lookup_delete_eq.
    + intros w Hw. by apply lookup_delete_ne.
Qed.

(** X13: after the release of channel [j], the next claim, whatever its
    candidate set, returns channel [j] or a lower one. *)
Theorem claim_after_release_returns_at_most_released
    (j k : nat) (cmask irqprio f p : Z) (m m1 m2 : machine) :
  wf cfg m ->
  gpdmaChannelFreeI cfg (Some j) m = Ok tt m1 ->
  gpdmaChannelAllocI cfg cmask irqprio f p m1 = Ok (Some k) m2 ->
  (k <= j)%nat.
Proof.
  intros Hwf Hfree Hclaim.
  apply gpdmaChannelFreeI_inv in Hfree as (j' & v & [= <-] & Hj & He);
    [| done].
  pose proof (free_effects_wf cfg j v m m1 Hwf He) as Hwf1.
  pose proof (free_effects_not_owned cfg Hcfg j v m m1 Hj He) as Hnot.
  destruct (alloc_selection cfg Hcfg _ _ _ _ _ _ _ Hwf1 Hclaim) as [_ Hlow].
  destruct (decide (k <= j)%nat) as [| Hgt]; [done |].
  destruct (Hlow j ltac:(lia)) as [Ho _]. done.
Qed.

(** *** [gpdmaServeInterrupt] *)

Lemma service_frame_nvic dmachp m m' :
  wf cfg m ->
  gpdmaServeInterrupt cfg dmachp m = Ok tt m' -> nvic m' = nvic m.
Proof.
  intros Hwf H. destruct dmachp as [i |]; [| done].
  destruct (decide (i < N)%nat) as [Hi | Hi].
  - pose proof Hwf as [Hc Hr].
    destruct (lookup_lt_is_Some_2 (channels m) i) as [s Hs]; [lia |].
    destruct (lookup_lt_is_Some_2 (regs m) i) as [r Hr']; [lia |].
    destruct (gpdmaServeInterrupt_ok cfg i m r s Hwf Hi Hr' Hs) as
      (m1 & Hrun & _ & _ & _ & _ & _ & _ & H3 & _).
    rewrite Hrun in H. by injection H as <-.
  - revert H. unfold gpdmaServeInterrupt. unfold_prims. simpl.
    by rewrite table_lookup_ge by lia.
Qed.

(** X14: an interrupt service completes only on a descriptor of the table; it
    leaves the mask, the slots, the clock gates, the vectors, the lock and the
    registers of the other channels as they were, and adds at most one
    callback invocation to the log. *)
Theorem service_touches_one_register_block
    (dmachp : option nat) (m m' : machine) :
  wf cfg m ->
  gpdmaServeInterrupt cfg dmachp m = Ok tt m' ->
  exists i, dmachp = Some i /\ (i < N)%nat /\
    allocated_mask m' = allocated_mask m /\
    channels m' = channels m /\
    rcc_gpdma1 m' = rcc_gpdma1 m /\ rcc_gpdma2 m' = rcc_gpdma2 m /\
    nvic m' = nvic m /\ syslock m' = syslock m /\
    (forall k, k <> i -> regs m' !! k = regs m !! k) /\
    (isr_log m' = isr_log m \/ exists c, isr_log m' = c :: isr_log m).
Proof.
  intros Hwf H. destruct dmachp as [i |]; [| done].
  destruct (decide (i < N)%nat) as [Hi | Hi].
  - pose proof Hwf as [Hc Hr].
    destruct (lookup_lt_is_Some_2 (channels m) i) as [s Hs]; [lia |].
    destruct (lookup_lt_is_Some_2 (regs m) i) as [r Hr']; [lia |].
    destruct (gpdmaServeInterrupt_ok cfg i m r s Hwf Hi Hr' Hs) as
      (m1 & Hrun & Hregs & Hlog & Hmask & Hch & H1 & H2 & H3 & H4).
    rewrite Hrun in H. injection H as <-.
    exists i. do 8 (split; [done |]). split.
    + intros k Hk. rewrite Hregs. by apply list_lookup_insert_ne.
    + rewrite Hlog. destruct (_ && _); [right; by eexists | by left].
  - revert H. unfold gpdmaServeInterrupt. unfold_prims. simpl.
    by rewrite table_lookup_ge by lia.
Qed.

(** X15: once a channel has been released, an interrupt of that channel is
    served without any callback, whatever its status and control
    registers. *)
Theorem service_after_release_is_silent (j : nat) (m m1 : machine) :
  wf cfg m ->
  gpdmaChannelFreeI cfg (Some j) m = Ok tt m1 ->
  exists m2, gpdmaServeInterrupt cfg (Some j) m1 = Ok tt m2 /\
             isr_log m2 = isr_log m1.
Proof.
  intros Hwf Hrun.
  apply gpdmaChannelFreeI_inv in Hrun as (j' & v & [= <-] & Hj & He); [| done].
  pose proof (free_effects_wf cfg j v m m1 Hwf He) as Hwf1.
  destruct He as (_ & _ & Hch & _).
  pose proof Hwf as [Hc _]. pose proof Hwf1 as [_ Hr1].
  destruct (lookup_lt_is_Some_2 (regs m1) j) as [r Hr]; [lia |].
  destruct (gpdmaServeInterrupt_ok cfg j m1 r
              {| func := NULL; param := NULL |} Hwf1 Hj Hr)
    as (m2 & Hrun2 & _ & Hlog & _).
  { rewrite Hch. apply list_lookup_insert_eq. lia. }
  exists m2. split; [done |]. rewrite Hlog. simpl.
  by rewrite andb_false_r.
Qed.

(** X16: right after a claim, an interrupt of the returned channel is served
    without any callback, whatever its status: the claim has zeroed the
    control register, so no interrupt source is enabled. *)
Theorem service_after_claim_is_silent
    (cmask irqprio f p : Z) (j : nat) (m m1 : machine) :
  wf cfg m ->
  gpdmaChannelAllocI cfg cmask irqprio f p m = Ok (Some j) m1 ->
  exists m2, gpdmaServeInterrupt cfg (Some j) m1 = Ok tt m2 /\
             isr_log m2 = isr_log m1.
Proof.
  intros Hwf Hrun.
  apply gpdmaChannelAllocI_inv in Hrun
    as [[? _] | (j' & v & [= <-] & Hj & _ & He)]; [done | | done].
  pose proof (alloc_effects_wf cfg _ _ _ _ _ _ _ _ Hwf He) as Hwf1.
  destruct He as (_ & _ & Hch & _ & _ & _ & _ & _ & r & Hregs & Hccr).
  pose proof Hwf as [Hc Hr].
  destruct (gpdmaServeInterrupt_ok cfg j m1 r
              {| func := f; param := p |} Hwf1 Hj)
    as (m2 & Hrun2 & _ & Hlog & _).
  { rewrite Hregs. apply list_lookup_insert_eq. lia. }
  { rewrite Hch. apply list_lookup_insert_eq. lia. }
  exists m2. split; [done |]. rewrite Hlog, Hccr, Z.land_0_r. done.
Qed.

(** *** What every reachable state satisfies *)

Lemma bit32_nonneg (i : nat) : 0 <= bit32 i.
Proof. unfold bit32, uint32. apply Z.mod_pos_bound. lia. Qed.

Lemma reachable_mask_nonneg m : reachable cfg m -> 0 <= allocated_mask m.
Proof.
  induction 1 as [boot m [Hwf _] Hrun | m m' _ IH Hrun | m m' _ IH Hrun
                 | m cmask prio f p r m' Hreach IH Hrun | m d m' Hreach IH Hrun
                 | m d m' Hreach IH Hrun].
  - destruct (dmaInit_ok cfg boot Hwf) as (m1 & Hrun1 & _ & Hmask & _).
    rewrite Hrun1 in Hrun. injection Hrun as <-. by rewrite Hmask.
  - by injection Hrun as <-.
  - by injection Hrun as <-.
  - apply reachable_wf in Hreach.
    apply gpdmaChannelAllocI_inv in Hrun
      as [[_ ->] | (j & v & _ & _ & _ & _ & -> & _)]; [done | | done].
    apply Z.lor_nonneg. split; [done | apply bit32_nonneg].
  - apply reachable_wf in Hreach.
    apply gpdmaChannelFreeI_inv in Hrun
      as (i & v & _ & _ & _ & -> & _); [| done].
    apply Z.land_nonneg. by left.
  - apply reachable_wf in Hreach.
    apply gpdmaServeInterrupt_inv in Hrun as (_ & -> & _); done.
Qed.

Lemma bits_below_bound (a : Z) (n : nat) :
  0 <= a ->
  (forall k : nat, Z.testbit a (Z.of_nat k) = true -> (k < n)%nat) ->
  a < 2 ^ Z.of_nat n.
Proof.
  intros Ha Hbits.
  assert (a mod 2 ^ Z.of_nat n = a) as <-.
  { apply Z.bits_inj'. intros i Hi.
    destruct (decide (i < Z.of_nat n)) as [Hlt | Hge].
    - by apply Z.mod_pow2_bits_low.
    - rewrite Z.mod_pow2_bits_high by lia.
      destruct (Z.testbit a i) eqn:Hb; [| done].
      rewrite <- (Z2Nat.id i Hi) in Hb. apply Hbits in Hb. lia. }
  apply Z.mod_pos_bound. apply Z.pow_pos_nonneg; lia.
Qed.

(** X17: in every state that the driver reaches, the mask of allocated
    channels holds no bit outside the table: it lies in
    [[0, 2^STM32_GPDMA_CHANNELS)], and an owned index is an index of the
    table. *)
Theorem reachable_mask_within_table (m : machine) :
  reachable cfg m ->
  0 <= allocated_mask m < 2 ^ Z.of_nat N /\
  forall k, owned m k -> (k < N)%nat.
Proof.
  intros Hreach.
  pose proof (reachable_mask_in_range cfg Hcfg m Hreach) as Hrange.
  pose proof (reachable_mask_nonneg m Hreach) as Hpos.
  split; [split; [done |] | done].
  by apply bits_below_bound.
Qed.

Lemma table_lookup_lt i d :
  __stm32_gpdma_channels cfg !! i = Some d ->
  (i < N)%nat /\ exists v, d = {| channel := i; vector := v |}.
Proof.
  intros Hd. destruct (decide (i < N)%nat) as [Hi | Hi].
  - split; [done |]. destruct (table_lookup cfg i Hi) as [v Hv].
    exists v. congruence.
  - rewrite table_lookup_ge in Hd by lia. done.
Qed.

(** X18: the driver's operations keep the vectors confined to owned
    channels: if every enabled vector is the vector of an owned channel, this
    still holds after a claim, after a release and after an interrupt
    service. *)
Theorem operations_keep_vectors_owned (m : machine) :
  wf cfg m ->
  nvic_inv cfg m ->
  (forall cmask irqprio f p r m',
     gpdmaChannelAllocI cfg cmask irqprio f p m = Ok r m' ->
     nvic_inv cfg m') /\
  (forall dmachp m',
     gpdmaChannelFreeI cfg dmachp m = Ok tt m' -> nvic_inv cfg m') /\
  (forall dmachp m',
     gpdmaServeInterrupt cfg dmachp m = Ok tt m' -> nvic_inv cfg m').
Proof.
  intros Hwf Hinv. split; [| split].
  - intros cmask irqprio f p r m' Hrun.
    apply gpdmaChannelAllocI_inv in Hrun
      as [[_ ->] | (j & v & _ & Hj & _ & He)]; [done | | done].
    pose proof He as (Hd & _ & _ & _ & _ & Hnvic & _).
    assert (forall i, owned m i -> owned m' i) as Hkeep.
    { intros i Ho.
      apply (alloc_effects_owned cfg Hcfg j v irqprio f p m m' i Hj He).
      by left. }
    intros w prio Hw. rewrite Hnvic in Hw.
    destruct (f =? NULL).
    + destruct (Hinv w prio Hw) as (i & d & Hi & Hv & Ho).
      exists i, d. auto.
    + destruct (decide (v = w)) as [<- | Hne].
      * exists j. eexists. split; [exact Hd |]. split; [done |].
        apply (alloc_effects_owned cfg Hcfg j v irqprio f p m m' j Hj He).
        by right.
      * rewrite lookup_insert_ne in Hw by done.
        destruct (Hinv w prio Hw) as (i & d & Hi & Hv & Ho).
        exists i, d. auto.
  - intros dmachp m' Hrun.
    apply gpdmaChannelFreeI_inv in Hrun as (j & v & _ & Hj & He); [| done].
    pose proof He as (Hd & _ & _ & _ & _ & Hnvic & _).
    intros w prio Hw. rewrite Hnvic in Hw.
    destruct (decide (v = w)) as [<- | Hne];
      [by rewrite lookup_delete_eq in Hw |].
    rewrite lookup_delete_ne in Hw by done.
    destruct (Hinv w prio Hw) as (i & d & Hi & Hv & Ho).
    exists i, d. do 2 (split; [done |]).
    destruct (table_lookup_lt i d Hi) as [HiN _].
    apply (free_effects_owned cfg Hcfg j v m m' i Hj
             (index_lt_32 i ltac:(lia)) He).
    split; [done |]. intros ->. rewrite Hd in Hi. injection Hi as <-.
    simpl in Hv. done.
  - intros dmachp m' Hrun.
    pose proof (service_frame_nvic dmachp m m' Hwf Hrun) as Hn.
    apply gpdmaServeInterrupt_inv in Hrun as (_ & Hmask & _); [| done].
    intros w prio Hw.
    destruct (Hinv w prio) as (i & d & Hi & Hv & Ho).
    + by rewrite <- Hn.
    + exists i, d. do 2 (split; [done |]). unfold owned. by rewrite Hmask.
Qed.

(** *** Claim, then release *)

(** X19: when the candidate set contains every channel of the table, a claim
    from a reachable state followed by the release of the returned channel
    completes and leaves the mask of allocated channels as it was before the
    claim. *)
Theorem claim_any_then_release_restores_mask
    (cmask irqprio f p : Z) (j : nat) (m m1 : machine) :
  reachable cfg m ->
  (forall k, (k < N)%nat -> in_cmask cmask k) ->
  gpdmaChannelAllocI cfg cmask irqprio f p m = Ok (Some j) m1 ->
  exists m2, gpdmaChannelFreeI cfg (Some j) m1 = Ok tt m2 /\
             allocated_mask m2 = allocated_mask m.
Proof.
  intros Hreach Hall Hrun.
  pose proof (reachable_wf cfg m Hreach) as Hwf.
  apply (claim_release_restores_free_channel cfg Hcfg cmask irqprio f p);
    [done .. |].
  destruct (alloc_selection cfg Hcfg _ _ _ _ _ _ _ Hwf Hrun) as [Hsel _].
  apply gpdmaChannelAllocI_inv in Hrun
    as [[? _] | (j' & v & [= <-] & Hj & _)]; [done | | done].
  intros Ho. apply Hsel. split; [done | by apply Hall].
Qed.

(** *** Completion of a claim *)

(** With the lock held, a claim completes as soon as one channel of the table
    is free or outside the candidate set. *)
Lemma claim_completes cmask irqprio f p m k :
  wf cfg m -> class_I_ok cfg m ->
  (k < N)%nat -> ~ taken cmask m k ->
  exists j m', gpdmaChannelAllocI cfg cmask irqprio f p m = Ok (Some j) m'.
Proof.
  intros Hwf Hlock Hk Hfree.
  rewrite gpdmaChannelAllocI_scan, class_I_check_passes by done.
  destruct (scan _ _ _) as [j |] eqn:Hscan.
  - apply scan_Some in Hscan as (_ & _ & Hlow).
    assert (j <= k)%nat as Hjk.
    { destruct (decide (j <= k)%nat) as [| Hgt]; [done |].
      destruct Hfree. apply loop_test_taken; [lia |]. apply Hlow. lia. }
    destruct (alloc_found_ok cfg j (bit32 j) irqprio f p m Hwf)
      as (m' & _ & Hrun & _); [lia |].
    by exists j, m'.
  - destruct Hfree. apply loop_test_taken; [lia |].
    apply (scan_None _ _ _ k Hscan). lia.
Qed.

End Coverage.

(** ** The two invariants of the allocation state *)

(** C7: a callback slot is non-empty only while the ownership bit of its
    channel is set.  [dmaInit] completes and establishes this, and every
    state that the driver reaches satisfies it.  From a state that satisfies
    it: a claim with the lock held completes whenever a channel is free or
    outside the candidate set; a claim that returns channel [j] has stored the
    callback and the parameter in slot [j] and set bit [j]; the release of an
    owned channel completes; a release of channel [j] has emptied slot [j]
    and cleared bit [j]; and both lead to a state that satisfies it, with [j]
    a valid channel index. *)
Theorem callback_slot_invariant (cfg : hal_config) (m : machine) :
  cfg_channels_ok cfg ->
  wf cfg m ->
  callback_inv m ->
  (forall boot, wf cfg boot ->
     exists m0, dmaInit cfg boot = Ok tt m0 /\ callback_inv m0) /\
  (forall m0, reachable cfg m0 -> callback_inv m0) /\
  (forall cmask irqprio f p k,
     class_I_ok cfg m ->
     (k < STM32_GPDMA_CHANNELS cfg)%nat -> ~ taken cmask m k ->
     exists j m',
       gpdmaChannelAllocI cfg cmask irqprio f p m = Ok (Some j) m') /\
  (forall cmask irqprio f p j m',
     gpdmaChannelAllocI cfg cmask irqprio f p m = Ok (Some j) m' ->
     (j < STM32_GPDMA_CHANNELS cfg)%nat /\
     owned m' j /\
     channels m' !! j = Some {| func := f; param := p |} /\
     callback_inv m') /\
  (forall j,
     (j < STM32_GPDMA_CHANNELS cfg)%nat -> owned m j ->
     exists m', gpdmaChannelFreeI cfg (Some j) m = Ok tt m') /\
  (forall j m',
     gpdmaChannelFreeI cfg (Some j) m = Ok tt m' ->
     (j < STM32_GPDMA_CHANNELS cfg)%nat /\
     ~ owned m' j /\
     channels m' !! j = Some {| func := NULL; param := NULL |} /\
     callback_inv m').
Proof.
  intros Hcfg Hwf Hinv.
  split; [| split; [| split; [| split; [| split]]]].
  - intros boot Hboot.
    destruct (dmaInit_ok cfg boot Hboot) as (m0 & Hrun & _ & _ & _ & Hfunc & _).
    exists m0. split; [done |]. intros i s Hs Hf. by apply Hfunc in Hs.
  - intros m0 Hreach. by apply (reachable_callback_inv cfg).
  - intros cmask irqprio f p k Hlock Hk Hfree.
    by apply (claim_completes cfg Hcfg cmask irqprio f p m k).
  - intros cmask prio f p j m' Hrun.
    apply gpdmaChannelAllocI_inv in Hrun
      as [[? _] | (j' & v & [= <-] & Hj & _ & He)]; [done | | done].
    split; [done |]. split; [| split].
    + apply (alloc_effects_owned cfg Hcfg j v prio f p m m' j Hj He).
      by right.
    + pose proof He as (_ & _ & -> & _). destruct Hwf as [Hc _].
      apply list_lookup_insert_eq. lia.
    + exact (alloc_callback_inv cfg Hcfg j v prio f p m m' Hwf Hj He Hinv).
  - intros j Hj Ho.
    destruct (gpdmaChannelFreeI_ok cfg j m Hwf Hj) as (m' & _ & Hrun & _).
    + intros _. apply Z.eqb_neq.
      rewrite land_bit32_eq_0 by (eapply channels_lt_32; done).
      unfold owned in Ho. by rewrite Ho.
    + by exists m'.
  - intros j m' Hrun.
    apply gpdmaChannelFreeI_inv in Hrun as (i & v & [= <-] & Hj & He);
      [| done].
    split; [done |]. split; [| split].
    + exact (free_effects_not_owned cfg Hcfg j v m m' Hj He).
    + pose proof He as (_ & _ & -> & _). destruct Hwf as [Hc _].
      apply list_lookup_insert_eq. lia.
    + exact (free_callback_inv cfg Hcfg j v m m' Hwf Hj He Hinv).
Qed.

(** C9, as stated: [dmaInit] leaves the clock gates as it finds them, so
    after a [dmaInit] run with the gate of GPDMA1 on, that gate is on although
    no channel of GPDMA1 is owned. *)
Lemma dmaInit_leaves_clock_gate_on :
  dmaInit scenario_cfg gate_on_machine = Ok tt gate_on_machine /\
  rcc_gpdma1 gate_on_machine = true /\
  ~ domain1_owned scenario_cfg gate_on_machine /\
  ~ clock_inv scenario_cfg gate_on_machine.
Proof.
  assert (~ domain1_owned scenario_cfg gate_on_machine) as Hnone.
  { intros (i & _ & Ho). unfold owned in Ho. simpl in Ho.
    by rewrite Z.bits_0 in Ho. }
  split; [vm_compute; reflexivity |]. split; [reflexivity |].
  split; [done |]. intros [H1 _]. apply Hnone, H1. reflexivity.
Qed.

(** C9, amended: a clock gate is on exactly when a channel of its domain is
    owned.  [dmaInit], run on a machine whose two clock gates are off,
    completes and establishes this, and so does every state that the driver
    reaches from there.  From a state that satisfies it: a claim with the
    lock held completes whenever a channel is free or outside the candidate
    set; a claim that returns a channel leaves the gate of its domain on and
    the other gate as it was; the release of an owned channel completes; a
    release of channel [j] leaves the gate of a domain off when no other
    channel of that domain was owned, and on when another one was; and both
    lead to a state that satisfies it. *)
Theorem clock_gating_invariant (cfg : hal_config) (m : machine) :
  cfg_channels_ok cfg ->
  masks_ok cfg ->
  wf cfg m ->
  clock_inv cfg m ->
  (forall boot, wf cfg boot ->
     rcc_gpdma1 boot = false -> rcc_gpdma2 boot = false ->
     exists m0, dmaInit cfg boot = Ok tt m0 /\ clock_inv cfg m0) /\
  (forall m0, reachable cfg m0 -> clock_inv cfg m0) /\
  (forall cmask irqprio f p k,
     class_I_ok cfg m ->
     (k < STM32_GPDMA_CHANNELS cfg)%nat -> ~ taken cmask m k ->
     exists j m',
       gpdmaChannelAllocI cfg cmask irqprio f p m = Ok (Some j) m') /\
  (forall cmask irqprio f p j m',
     gpdmaChannelAllocI cfg cmask irqprio f p m = Ok (Some j) m' ->
     clock_inv cfg m' /\
     ((j < STM32_GPDMA1_NUM_CHANNELS cfg)%nat ->
      rcc_gpdma1 m' = true /\ rcc_gpdma2 m' = rcc_gpdma2 m) /\
     ((STM32_GPDMA1_NUM_CHANNELS cfg <= j)%nat ->
      rcc_gpdma2 m' = true /\ rcc_gpdma1 m' = rcc_gpdma1 m)) /\
  (forall j,
     (j < STM32_GPDMA_CHANNELS cfg)%nat -> owned m j ->
     exists m', gpdmaChannelFreeI cfg (Some j) m = Ok tt m') /\
  (forall j m',
     gpdmaChannelFreeI cfg (Some j) m = Ok tt m' ->
     clock_inv cfg m' /\
     ((forall i, (i < STM32_GPDMA1_NUM_CHANNELS cfg)%nat ->
                 owned m i -> i = j) ->
      rcc_gpdma1 m' = false) /\
     ((exists i, (i < STM32_GPDMA1_NUM_CHANNELS cfg)%nat /\
                 i <> j /\ owned m i) ->
      rcc_gpdma1 m' = true) /\
     ((forall i, (STM32_GPDMA1_NUM_CHANNELS cfg <= i
                  < STM32_GPDMA_CHANNELS cfg)%nat ->
                 owned m i -> i = j) ->
      rcc_gpdma2 m' = false) /\
     ((exists i, (STM32_GPDMA1_NUM_CHANNELS cfg <= i
                  < STM32_GPDMA_CHANNELS cfg)%nat /\
                 i <> j /\ owned m i) ->
      rcc_gpdma2 m' = true)).
Proof.
  intros Hcfg Hmasks Hwf Hinv.
  split; [| split; [| split; [| split; [| split]]]].
  - intros boot Hboot Hoff1 Hoff2.
    destruct (dmaInit_ok cfg boot Hboot)
      as (m0 & Hrun & _ & Hmask & (H1 & H2 & _) & _).
    exists m0. split; [done |].
    assert (forall i, ~ owned m0 i) as Hfree.
    { intros i. unfold owned. by rewrite Hmask, Z.bits_0. }
    split; [rewrite H1, Hoff1 | rewrite H2, Hoff2];
      (split; [done | intros (i & _ & Ho); by apply Hfree in Ho]).
  - intros m0 Hreach. by apply reachable_clock_inv.
  - intros cmask irqprio f p k Hlock Hk Hfree.
    by apply (claim_completes cfg Hcfg cmask irqprio f p m k).
  - intros cmask prio f p j m' Hrun.
    apply gpdmaChannelAllocI_inv in Hrun
      as [[? _] | (j' & v & [= <-] & Hj & _ & He)]; [done | | done].
    split; [exact (alloc_clock_inv cfg Hcfg Hmasks j v prio f p m m' Hj He
                     Hinv) |].
    destruct He as (_ & _ & _ & Hr1 & Hr2 & _).
    rewrite (mask1_bit cfg Hcfg Hmasks j Hj) in Hr1.
    rewrite (mask2_bit cfg Hcfg Hmasks j Hj) in Hr2.
    split; intros Hd.
    + rewrite bool_decide_eq_true_2 in Hr1 by done.
      rewrite bool_decide_eq_false_2 in Hr2 by lia.
      split; [done |]. by destruct (0 <? _)%nat.
    + rewrite bool_decide_eq_false_2 in Hr1 by lia.
      rewrite bool_decide_eq_true_2 in Hr2 by lia.
      split; [| done].
      assert ((0 <? STM32_GPDMA2_NUM_CHANNELS cfg)%nat = true) as E
        by (apply Nat.ltb_lt; unfold STM32_GPDMA_CHANNELS in Hj; lia).
      by rewrite E in Hr2.
  - intros j Hj Ho.
    destruct (gpdmaChannelFreeI_ok cfg j m Hwf Hj) as (m' & _ & Hrun & _).
    + intros _. apply Z.eqb_neq.
      rewrite land_bit32_eq_0 by (eapply channels_lt_32; done).
      unfold owned in Ho. by rewrite Ho.
    + by exists m'.
  - intros j m' Hrun.
    apply gpdmaChannelFreeI_inv in Hrun as (i & v & [= <-] & Hj & He);
      [| done].
    pose proof (free_clock_inv cfg Hcfg Hmasks j v m m' Hj He Hinv)
      as [H1 H2].
    assert (forall i, (i < STM32_GPDMA_CHANNELS cfg)%nat ->
              (owned m' i <-> owned m i /\ i <> j)) as Hown.
    { intros i Hi.
      apply (free_effects_owned cfg Hcfg j v m m' i Hj); [| done].
      by eapply channels_lt_32. }
    split; [by split |]. split; [| split; [| split]].
    + intros Hlast. destruct (rcc_gpdma1 m'); [| done].
      destruct (proj1 H1 eq_refl) as (i & Hi & Hoi).
      apply Hown in Hoi as [Hoi Hne];
        [| unfold STM32_GPDMA_CHANNELS; lia].
      destruct Hne. by apply Hlast.
    + intros (i & Hi & Hne & Hoi). apply H1. exists i. split; [done |].
      apply Hown; [unfold STM32_GPDMA_CHANNELS; lia | done].
    + intros Hlast. destruct (rcc_gpdma2 m'); [| done].
      destruct (proj1 H2 eq_refl) as (i & Hi & Hoi).
      apply Hown in Hoi as [Hoi Hne]; [| lia].
      destruct Hne. by apply Hlast.
    + intros (i & Hi & Hne & Hoi). apply H2. exists i. split; [done |].
      apply Hown; [lia | done].
Qed.

(** *** The further properties at the machines of the scenario *)

Lemma scenario_channels_ok : cfg_channels_ok scenario_cfg.
Proof. split; simpl; lia. Qed.

Lemma reset_machine_reachable : reachable scenario_cfg (reset_machine 16).
Proof.
  apply reach_init with (boot := reset_machine 16);
    [repeat split | reflexivity].
Qed.

Lemma claimed_machine_reachable : reachable scenario_cfg claimed_machine.
Proof.
  apply (reach_claim scenario_cfg (reset_machine 16) 0xFFFF 5 isr_a arg_a
           (Some 0%nat) claimed_machine).
  - apply reset_machine_reachable.
  - apply claimed_machine_run.
Qed.

Lemma released_machine_run :
  gpdmaChannelFreeI scenario_cfg (Some 0%nat) claimed_machine
  = Ok tt released_machine.
Proof. vm_compute. reflexivity. Qed.

Lemma full_cmask_covers k :
  (k < STM32_GPDMA_CHANNELS scenario_cfg)%nat -> in_cmask 0xFFFF k.
Proof.
  unfold STM32_GPDMA_CHANNELS. simpl. intros Hk.
  do 16 (destruct k as [| k]; [reflexivity |]). lia.
Qed.

Lemma callback_slot_invariant_witness :
  (exists m',
     gpdmaChannelFreeI scenario_cfg (Some 0%nat) claimed_machine = Ok tt m' /\
     ~ owned m' 0 /\
     channels m' !! 0%nat = Some {| func := NULL; param := NULL |} /\
     callback_inv m') /\
  (exists j m',
     gpdmaChannelAllocI scenario_cfg 0xFFFF 5 isr_b arg_b claimed_machine
     = Ok (Some j) m' /\
     owned m' j /\
     channels m' !! j = Some {| func := isr_b; param := arg_b |} /\
     callback_inv m').
Proof.
  destruct (callback_slot_invariant scenario_cfg claimed_machine)
    as (_ & _ & Hclaims & Hclaim & Hreleases & Hrelease).
  - split; simpl; lia.
  - split; reflexivity.
  - exact (reachable_callback_inv scenario_cfg scenario_channels_ok
             claimed_machine claimed_machine_reachable).
  - split.
    + destruct (Hreleases 0%nat) as [m' Hrun].
      * unfold STM32_GPDMA_CHANNELS. simpl. lia.
      * reflexivity.
      * exists m'. split; [exact Hrun |].
        destruct (Hrelease 0%nat m' Hrun) as (_ & H1 & H2 & H3). auto.
    + destruct (Hclaims 0xFFFF 5 isr_b arg_b 1%nat) as (j & m' & Hrun).
      * intros _. reflexivity.
      * unfold STM32_GPDMA_CHANNELS. simpl. lia.
      * intros [Ho _]. vm_compute in Ho. discriminate.
      * exists j, m'. split; [exact Hrun |].
        destruct (Hclaim 0xFFFF 5 isr_b arg_b j m' Hrun) as (_ & H1 & H2 & H3).
        auto.
Defined.

Lemma clock_gating_invariant_witness :
  rcc_gpdma1 claimed_machine = true /\
  (exists m',
     gpdmaChannelFreeI scenario_cfg (Some 0%nat) claimed_machine = Ok tt m' /\
     rcc_gpdma1 m' = false /\ clock_inv scenario_cfg m') /\
  (exists j m',
     gpdmaChannelAllocI scenario_cfg 0xFFFF 5 isr_b arg_b claimed_machine
     = Ok (Some j) m' /\ clock_inv scenario_cfg m').
Proof.
  destruct (clock_gating_invariant scenario_cfg claimed_machine)
    as (_ & _ & Hclaims & Hclaim & Hreleases & Hrelease).
  - split; simpl; lia.
  - exact scenario_masks_ok.
  - split; reflexivity.
  - exact (reachable_clock_inv scenario_cfg scenario_channels_ok
             scenario_masks_ok claimed_machine claimed_machine_reachable).
  - split; [reflexivity | split].
    + destruct (Hreleases 0%nat) as [m' Hrun].
      * unfold STM32_GPDMA_CHANNELS. simpl. lia.
      * reflexivity.
      * exists m'. split; [exact Hrun |].
        destruct (Hrelease 0%nat m' Hrun) as (Hinv & Hlast & _).
        split; [| exact Hinv]. apply Hlast.
        intros i Hi Ho. simpl in Hi.
        do 8 (destruct i as [| i];
              [first [reflexivity | vm_compute in Ho; discriminate] |]).
        lia.
    + destruct (Hclaims 0xFFFF 5 isr_b arg_b 1%nat) as (j & m' & Hrun).
      * intros _. reflexivity.
      * unfold STM32_GPDMA_CHANNELS. simpl. lia.
      * intros [Ho _]. vm_compute in Ho. discriminate.
      * exists j, m'. split; [exact Hrun |].
        by destruct (Hclaim 0xFFFF 5 isr_b arg_b j m' Hrun) as [Hinv _].
Defined.

Lemma dmaInit_frees_every_channel_witness :
  exists m', dmaInit scenario_cfg claimed_machine = Ok tt m' /\
    (forall k, ~ owned m' k) /\
    (forall k s, channels claimed_machine !! k = Some s ->
       channels m' !! k = Some {| func := NULL; param := param s |}) /\
    (forall k r, regs claimed_machine !! k = Some r ->
       regs m' !! k = Some {| CCR := 0; CSR := CSR r; CFCR := CFCR r |}) /\
    same_collaborators claimed_machine m'.
Proof.
  apply (dmaInit_frees_every_channel scenario_cfg claimed_machine).
  split; reflexivity.
Defined.

Lemma dmaInit_idempotent_witness :
  dmaInit scenario_cfg reinit_machine = Ok tt reinit_machine.
Proof.
  apply (dmaInit_idempotent scenario_cfg claimed_machine reinit_machine).
  - split; reflexivity.
  - vm_compute. reflexivity.
Defined.

Lemma claim_returns_first_untaken_channel_witness :
  exists m',
    gpdmaChannelAllocI scenario_cfg 0xFFFF 5 isr_b arg_b claimed_machine
    = Ok (Some 1%nat) m'.
Proof.
  apply (claim_returns_first_untaken_channel scenario_cfg).
  - split; simpl; lia.
  - split; reflexivity.
  - intros _. reflexivity.
  - split; [unfold STM32_GPDMA_CHANNELS; simpl; lia | split].
    + intros [Ho _]. vm_compute in Ho. discriminate.
    + intros k Hk. destruct k as [| k]; [split; reflexivity | lia].
Defined.

Lemma claim_overruns_when_all_taken_witness :
  gpdmaChannelAllocI scenario_cfg 0xFF00 5 isr_b arg_b claimed_machine
  = Err (OutOfBounds (STM32_GPDMA_CHANNELS scenario_cfg))
  <-> forall k, (k < STM32_GPDMA_CHANNELS scenario_cfg)%nat ->
                taken 0xFF00 claimed_machine k.
Proof.
  apply (claim_overruns_when_all_taken scenario_cfg).
  - split; simpl; lia.
  - apply claimed_machine_reachable.
  - intros _. reflexivity.
Defined.

Lemma claim_any_returns_lowest_free_witness :
  ~ owned (reset_machine 16) 0 /\
  (forall k, (k < 0)%nat -> owned (reset_machine 16) k) /\
  owned claimed_machine 0.
Proof.
  apply (claim_any_returns_lowest_free scenario_cfg) with
    (cmask := 0xFFFF) (irqprio := 5) (f := isr_a) (p := arg_a).
  - split; simpl; lia.
  - split; reflexivity.
  - apply full_cmask_covers.
  - vm_compute. reflexivity.
Defined.

Lemma claim_touches_one_channel_witness :
  (forall k, k <> 0%nat ->
     channels claimed_machine !! k = channels (reset_machine 16) !! k /\
     regs claimed_machine !! k = regs (reset_machine 16) !! k /\
     (owned claimed_machine k <-> owned (reset_machine 16) k)) /\
  (exists r, regs claimed_machine !! 0%nat = Some r /\ CCR r = 0) /\
  syslock claimed_machine = syslock (reset_machine 16) /\
  isr_log claimed_machine = isr_log (reset_machine 16).
Proof.
  apply (claim_touches_one_channel scenario_cfg) with
    (cmask := 0xFFFF) (irqprio := 5) (f := isr_a) (p := arg_a).
  - split; simpl; lia.
  - split; reflexivity.
  - vm_compute. reflexivity.
Defined.

Lemma claim_enables_vector_for_callback_witness :
  exists d,
    __stm32_gpdma_channels scenario_cfg !! 0%nat = Some d /\
    (isr_a = NULL -> nvic claimed_machine = nvic (reset_machine 16)) /\
    (isr_a <> NULL ->
     nvic claimed_machine !! vector d = Some 5 /\
     forall w, w <> vector d ->
       nvic claimed_machine !! w = nvic (reset_machine 16) !! w).
Proof.
  apply (claim_enables_vector_for_callback scenario_cfg 0xFFFF 5 isr_a arg_a
           (reset_machine 16) claimed_machine 0).
  - split; reflexivity.
  - vm_compute. reflexivity.
Defined.

Lemma gpdmaChannelAlloc_claims_under_lock_witness :
  gpdmaChannelAlloc scenario_cfg 0xFFFF 5 isr_a arg_a
    (set_syslock false (reset_machine 16)) <> Err DbgHalt.
Proof.
  apply (gpdmaChannelAlloc_claims_under_lock scenario_cfg).
  - apply (reach_unlock scenario_cfg (reset_machine 16));
      [apply reset_machine_reachable | reflexivity].
  - reflexivity.
Defined.

Lemma release_completes_only_on_owned_entry_witness :
  exists j, Some 0%nat = Some j /\
    (j < STM32_GPDMA_CHANNELS scenario_cfg)%nat /\
    (OSAL_DBG_ENABLE_ASSERTS scenario_cfg = true -> owned claimed_machine j).
Proof.
  apply (release_completes_only_on_owned_entry scenario_cfg) with
    (m' := released_machine).
  - split; simpl; lia.
  - split; reflexivity.
  - vm_compute. reflexivity.
Defined.

Lemma double_release_halts_witness :
  gpdmaChannelFreeI scenario_cfg (Some 0%nat) released_machine = Err DbgHalt.
Proof.
  apply (double_release_halts scenario_cfg) with (m := claimed_machine).
  - split; simpl; lia.
  - split; reflexivity.
  - reflexivity.
  - vm_compute. reflexivity.
Defined.

Lemma unchecked_release_of_free_channel_witness :
  exists m' d,
    gpdmaChannelFreeI release_build_cfg (Some 3%nat) (reset_machine 16)
    = Ok tt m' /\
    __stm32_gpdma_channels release_build_cfg !! 3%nat = Some d /\
    allocated_mask m' = allocated_mask (reset_machine 16) /\
    channels m' !! 3%nat = Some {| func := NULL; param := NULL |} /\
    nvic m' !! vector d = None.
Proof.
  apply (unchecked_release_of_free_channel release_build_cfg).
  - split; simpl; lia.
  - apply reach_init with (boot := reset_machine 16);
      [repeat split | reflexivity].
  - reflexivity.
  - unfold STM32_GPDMA_CHANNELS. simpl. lia.
  - intros Ho. vm_compute in Ho. discriminate.
Defined.

Lemma release_touches_one_channel_witness :
  regs released_machine = regs claimed_machine /\
  (forall k, k <> 0%nat -> (k < STM32_GPDMA_CHANNELS scenario_cfg)%nat ->
     channels released_machine !! k = channels claimed_machine !! k /\
     (owned released_machine k <-> owned claimed_machine k)) /\
  ~ owned released_machine 0 /\
  (exists d, __stm32_gpdma_channels scenario_cfg !! 0%nat = Some d /\
             nvic released_machine !! vector d = None /\
             forall w, w <> vector d ->
               nvic released_machine !! w = nvic claimed_machine !! w) /\
  syslock released_machine = syslock claimed_machine /\
  isr_log released_machine = isr_log claimed_machine.
Proof.
  apply (release_touches_one_channel scenario_cfg).
  - split; simpl; lia.
  - split; reflexivity.
  - vm_compute. reflexivity.
Defined.

Lemma claim_after_release_returns_at_most_released_witness : (0 <= 0)%nat.
Proof.
  apply (claim_after_release_returns_at_most_released scenario_cfg) with
    (cmask := 0xFF00) (irqprio := 5) (f := isr_a) (p := arg_a)
    (m := claimed_machine) (m1 := released_machine) (m2 := claimed_machine).
  - split; simpl; lia.
  - split; reflexivity.
  - vm_compute. reflexivity.
  - vm_compute. reflexivity.
Defined.

Lemma service_touches_one_register_block_witness :
  exists i, Some 0%nat = Some i /\
    (i < STM32_GPDMA_CHANNELS scenario_cfg)%nat /\
    allocated_mask serviced_machine = allocated_mask released_machine /\
    channels serviced_machine = channels released_machine /\
    rcc_gpdma1 serviced_machine = rcc_gpdma1 released_machine /\
    rcc_gpdma2 serviced_machine = rcc_gpdma2 released_machine /\
    nvic serviced_machine = nvic released_machine /\
    syslock serviced_machine = syslock released_machine /\
    (forall k, k <> i ->
       regs serviced_machine !! k = regs released_machine !! k) /\
    (isr_log serviced_machine = isr_log released_machine \/
     exists c, isr_log serviced_machine = c :: isr_log released_machine).
Proof.
  apply (service_touches_one_register_block scenario_cfg (Some 0%nat)
           released_machine serviced_machine).
  - split; reflexivity.
  - vm_compute. reflexivity.
Defined.

Lemma service_after_release_is_silent_witness :
  exists m2,
    gpdmaServeInterrupt scenario_cfg (Some 0%nat) released_machine
    = Ok tt m2 /\
    isr_log m2 = isr_log released_machine.
Proof.
  apply (service_after_release_is_silent scenario_cfg 0 claimed_machine).
  - split; reflexivity.
  - vm_compute. reflexivity.
Defined.

Lemma service_after_claim_is_silent_witness :
  exists m2,
    gpdmaServeInterrupt scenario_cfg (Some 0%nat) claimed_machine
    = Ok tt m2 /\
    isr_log m2 = isr_log claimed_machine.
Proof.
  apply (service_after_claim_is_silent scenario_cfg 0xFFFF 5 isr_a arg_a 0
           (reset_machine 16)).
  - split; reflexivity.
  - vm_compute. reflexivity.
Defined.

Lemma reachable_mask_within_table_witness :
  0 <= allocated_mask claimed_machine
       < 2 ^ Z.of_nat (STM32_GPDMA_CHANNELS scenario_cfg) /\
  forall k, owned claimed_machine k ->
            (k < STM32_GPDMA_CHANNELS scenario_cfg)%nat.
Proof.
  apply (reachable_mask_within_table scenario_cfg).
  - split; simpl; lia.
  - apply claimed_machine_reachable.
Defined.

Lemma operations_keep_vectors_owned_witness :
  nvic_inv scenario_cfg released_machine.
Proof.
  refine (proj1 (proj2
    (operations_keep_vectors_owned scenario_cfg _ claimed_machine _ _))
    (Some 0%nat) released_machine _).
  - split; simpl; lia.
  - split; reflexivity.
  - intros v prio Hv. unfold claimed_machine in Hv. simpl in Hv.
    apply lookup_singleton_Some in Hv as [<- <-].
    exists 0%nat, {| channel := 0; vector := 27 |}.
    repeat split.
  - vm_compute. reflexivity.
Defined.

Lemma claim_any_then_release_restores_mask_witness :
  exists m2,
    gpdmaChannelFreeI scenario_cfg (Some 0%nat) claimed_machine = Ok tt m2 /\
    allocated_mask m2 = allocated_mask (reset_machine 16).
Proof.
  apply (claim_any_then_release_restores_mask scenario_cfg) with
    (cmask := 0xFFFF) (irqprio := 5) (f := isr_a) (p := arg_a).
  - split; simpl; lia.
  - apply reset_machine_reachable.
  - apply full_cmask_covers.
  - vm_compute. reflexivity.
Defined.
